(** * Customer segmentation app: the inference pipeline and the
      cluster-to-profile mapping of [streamlit_app.py]

    The development embeds the two code paths of the application that carry
    logic: the dataset-wide cluster analysis
    ([load_data_and_analyze_clusters], with the decision rule
    [create_cluster_description]) and the per-request path that transforms one
    customer's input and looks its segment up.

    Numbers are modelled as the program has them: Python and numpy floats are
    IEEE binary64 values, here Rocq's primitive [float]; integers are [Z],
    with the wrap-around of numpy's int64 written out where the program adds
    to an integer column.  pandas objects are finite maps keyed by column
    name.  Exceptions are values of [exn], threaded by the [result] monad. *)

From Stdlib Require Import ZArith QArith Lia Ascii String.
From Stdlib Require Import PrimFloat FloatOps SpecFloat.
From Stdlib Require Import FloatAxioms Qpower Lqa.
From stdpp Require Import gmap strings list fin_maps.

#[local] Set Warnings "-inexact-float".
#[local] Open Scope Z_scope.

(** ** Exceptions *)

(** The key carried by a [KeyError]: a column name or a dict key. *)
Inductive pykey : Type :=
| KStr (s : string)
| KInt (z : Z).

Inductive exn : Type :=
| KeyError (k : pykey)
| ValueError
| IndexError
| ZeroDivisionError.

Inductive result (A : Type) : Type :=
| Ok (a : A)
| Raise (e : exn).
Arguments Ok {A} a.
Arguments Raise {A} e.

#[global] Instance result_ret : MRet result := λ A, Ok.
#[global] Instance result_bind : MBind result := λ A B f m,
  match m with
  | Ok a => f a
  | Raise e => Raise e
  end.
#[global] Instance result_fmap : FMap result := λ A B f m,
  match m with
  | Ok a => Ok (f a)
  | Raise e => Raise e
  end.

Definition is_Ok {A} (r : result A) : Prop := ∃ a, r = Ok a.

(** [for x in xs: acc = body(acc, x)], stopping at the first exception. *)
Fixpoint for_each {A B} (body : A → B → result A) (xs : list B) (acc : A) : result A :=
  match xs with
  | [] => Ok acc
  | x :: xs' => acc' ← body acc x; for_each body xs' acc'
  end.

(** [range(n)] *)
Definition range (n : nat) : list Z := Z.of_nat <$> seq 0 n.

(** ** Numbers *)

(** Conversion of an integer to binary64, rounding to nearest-even (exact
    below 2^53). *)
Definition of_Z (z : Z) : float := SF2Prim (binary_normalize 53 1024 z 0 false).

(** numpy int64 arithmetic wraps around. *)
Definition wrap64 (z : Z) : Z := (z + 2 ^ 63) mod 2 ^ 64 - 2 ^ 63.

(** Python's [a / b] on ints: [ZeroDivisionError] on a zero divisor, else
    the quotient as a float.  The operands here are row counts, far below
    2^53, where converting first and dividing in binary64 is Python's
    correctly rounded quotient. *)
Definition truediv (a b : Z) : result float :=
  if bool_decide (b = 0) then Raise ZeroDivisionError
  else Ok (of_Z a / of_Z b)%float.

(** ** pandas Series and DataFrame *)

(** A column: float64 or int64 values. *)
Inductive Series : Type :=
| FloatSeries (xs : list float)
| IntSeries (xs : list Z).

Definition series_len (s : Series) : nat :=
  match s with
  | FloatSeries xs => length xs
  | IntSeries xs => length xs
  end.

(** Boolean-mask selection [xs[mask]]. *)
Fixpoint filter_mask {A} (mask : list bool) (xs : list A) : list A :=
  match mask, xs with
  | b :: mask', x :: xs' =>
      if b then x :: filter_mask mask' xs' else filter_mask mask' xs'
  | _, _ => []
  end.

Definition series_filter (mask : list bool) (s : Series) : Series :=
  match s with
  | FloatSeries xs => FloatSeries (filter_mask mask xs)
  | IntSeries xs => IntSeries (filter_mask mask xs)
  end.

(** [s == v] for an integer [v], elementwise. *)
Definition series_eq (s : Series) (v : Z) : list bool :=
  match s with
  | FloatSeries xs => (λ x, PrimFloat.eqb x (of_Z v)) <$> xs
  | IntSeries xs => (λ x, bool_decide (x = v)) <$> xs
  end.

(** A frame: the row labels and the columns by name.  (Column order, which
    only the fitted model stages look at, is not kept.) *)
Record DataFrame : Type := {
  index : list nat;
  columns : gmap string Series;
}.

(** [len(df)] *)
Definition df_len (df : DataFrame) : nat := length (index df).

(** [m[k]] on a Series or a dict keyed by strings. *)
Definition getitem {V} (m : gmap string V) (k : string) : result V :=
  match m !! k with
  | Some v => Ok v
  | None => Raise (KeyError (KStr k))
  end.

(** [df[col]] *)
Definition df_getitem (df : DataFrame) (col : string) : result Series :=
  getitem (columns df) col.

(** [df[col] = s] for a Series [s] computed from a column of [df] itself:
    pandas aligns it on the index, there is no length check to fail. *)
Definition df_assign (df : DataFrame) (col : string) (s : Series) : DataFrame :=
  {| index := index df; columns := <[col := s]> (columns df) |}.

(** [df[col] = arr] for a numpy array: [ValueError] unless its length is
    the length of the index. *)
Definition df_setitem_array (df : DataFrame) (col : string) (arr : list Z) : result DataFrame :=
  if bool_decide (length arr = df_len df)
  then Ok (df_assign df col (IntSeries arr))
  else Raise ValueError.

(** [df[df[col] == v]] *)
Definition df_where_eq (df : DataFrame) (col : string) (v : Z) : result DataFrame :=
  s ← df_getitem df col;
  let mask := series_eq s v in
  Ok {| index := filter_mask mask (index df);
        columns := series_filter mask <$> columns df |}.

(** ** The decision rule's output *)

Record Description : Type := {
  name : string;
  description : string;
  key_features : list string;
}.

(** The entry stored per cluster id. *)
Record ClusterInfo : Type := {
  ci_means : gmap string float;
  ci_description : Description;
  ci_size : nat;
  ci_percentage : float;
}.

(** ** The narrative templates, as in the source (UTF-8 bytes) *)

Definition template_active_solvent : string :=
  "
                    Этот сегмент характеризуется высоким уровнем активности и ответственным подходом к платежам.
                    
                    **Основные характеристики:**
                    - Высокая частота покупок ({:.2%})
                    - Большой объем покупок (${:.2f})
                    - Регулярные полные платежи ({:.2%})
                    - Активное использование кредитного лимита
                    
                    **Рекомендации:**
                    - Предлагать премиальные продукты и программы лояльности
                    - Рекомендовать кэшбэк-программы
                    - Рассматривать увеличение кредитного лимита
                    ".

Definition template_active_installments : string :=
  "
                    Клиенты этого сегмента активно используют карту, но предпочитают оплачивать в рассрочку.
                    
                    **Основные характеристики:**
                    - Высокая частота покупок ({:.2%})
                    - Большой объем покупок (${:.2f})
                    - Использование рассрочки
                    - Средний уровень баланса (${:.2f})
                    
                    **Рекомендации:**
                    - Предлагать выгодные программы рассрочки
                    - Информировать о преимуществах полного погашения
                    - Программы накопления баллов
                    ".

Definition template_moderate : string :=
  "
                Клиенты с умеренным использованием карты и средним уровнем активности.
                
                **Основные характеристики:**
                - Средняя частота покупок ({:.2%})
                - Умеренный объем покупок (${:.2f})
                - Стабильное использование кредитного лимита
                - Регулярные платежи
                
                **Рекомендации:**
                - Программы стимулирования активности
                - Предложения по увеличению использования
                - Информация о новых продуктах
                ".

Definition template_cash_advance : string :=
  "
                Сегмент клиентов, активно использующих функцию получения наличных.
                
                **Основные характеристики:**
                - Высокое использование денежных авансов (${:.2f})
                - Низкая частота покупок ({:.2%})
                - Высокая частота получения наличных ({:.2%})
                - Средний/высокий кредитный лимит (${:.2f})
                
                **Рекомендации:**
                - Мониторинг рисков
                - Предложения по снижению использования наличных
                    - Образовательные материалы о преимуществах безналичных платежей
                ".

Definition template_low_activity : string :=
  "
                Клиенты с низкой активностью использования карты.
                
                **Основные характеристики:**
                - Низкая частота покупок ({:.2%})
                - Небольшой объем покупок (${:.2f})
                - Низкий баланс (${:.2f})
                - Минимальное использование кредитного лимита
                
                **Рекомендации:**
                - Программы активации клиентов
                - Специальные предложения для возврата активности
                - Анализ причин неиспользования карты
                - Рассмотрение закрытия неактивных счетов
                ".

Definition template_unusual : string :=
  "
                Сегмент с уникальными паттернами использования карты.
                
                **Основные характеристики:**
                - Специфические модели использования
                - Уникальное сочетание параметров
                - Требует индивидуального подхода
                
                **Рекомендации:**
                - Персонализированный анализ
                - Индивидуальные предложения
                ".

(** ** The columns under log(1+x), once per code path *)

Module Analyze.
(** [cols_log] of [load_data_and_analyze_clusters] *)
Definition cols_log : list string :=
  ["BALANCE"; "ONEOFF_PURCHASES"; "INSTALLMENTS_PURCHASES"; "CASH_ADVANCE";
   "ONEOFF_PURCHASES_FREQUENCY"; "PURCHASES_INSTALLMENTS_FREQUENCY";
   "CASH_ADVANCE_TRX"; "PURCHASES_TRX"; "CREDIT_LIMIT"; "PAYMENTS";
   "MINIMUM_PAYMENTS"; "PRC_FULL_PAYMENT"].
End Analyze.

Module Request.
(** [cols_log] of the prediction button's handler *)
Definition cols_log : list string :=
  ["BALANCE"; "ONEOFF_PURCHASES"; "INSTALLMENTS_PURCHASES"; "CASH_ADVANCE";
   "ONEOFF_PURCHASES_FREQUENCY"; "PURCHASES_INSTALLMENTS_FREQUENCY";
   "CASH_ADVANCE_TRX"; "PURCHASES_TRX"; "CREDIT_LIMIT"; "PAYMENTS";
   "MINIMUM_PAYMENTS"; "PRC_FULL_PAYMENT"].

(** [pd.DataFrame([input_data])]: one row, the seventeen form fields; the
    three [number_input]s with integer bounds give ints. *)
Definition df_input
    (balance balance_frequency purchases oneoff_purchases
     installments_purchases cash_advance purchases_frequency
     oneoff_purchases_frequency purchases_installments_frequency
     cash_advance_frequency : float)
    (cash_advance_trx purchases_trx : Z)
    (credit_limit payments minimum_payments prc_full_payment : float)
    (tenure : Z) : DataFrame :=
  {| index := [0%nat];
     columns :=
       <["BALANCE" := FloatSeries [balance]]>
       (<["BALANCE_FREQUENCY" := FloatSeries [balance_frequency]]>
       (<["PURCHASES" := FloatSeries [purchases]]>
       (<["ONEOFF_PURCHASES" := FloatSeries [oneoff_purchases]]>
       (<["INSTALLMENTS_PURCHASES" := FloatSeries [installments_purchases]]>
       (<["CASH_ADVANCE" := FloatSeries [cash_advance]]>
       (<["PURCHASES_FREQUENCY" := FloatSeries [purchases_frequency]]>
       (<["ONEOFF_PURCHASES_FREQUENCY" := FloatSeries [oneoff_purchases_frequency]]>
       (<["PURCHASES_INSTALLMENTS_FREQUENCY" := FloatSeries [purchases_installments_frequency]]>
       (<["CASH_ADVANCE_FREQUENCY" := FloatSeries [cash_advance_frequency]]>
       (<["CASH_ADVANCE_TRX" := IntSeries [cash_advance_trx]]>
       (<["PURCHASES_TRX" := IntSeries [purchases_trx]]>
       (<["CREDIT_LIMIT" := FloatSeries [credit_limit]]>
       (<["PAYMENTS" := FloatSeries [payments]]>
       (<["MINIMUM_PAYMENTS" := FloatSeries [minimum_payments]]>
       (<["PRC_FULL_PAYMENT" := FloatSeries [prc_full_payment]]>
       (<["TENURE" := IntSeries [tenure]]> ∅)))))))))))))))) |}.
End Request.

(** ** The six derived predicates of the decision rule *)

Definition high_balance (means : gmap string float) : result bool :=
  x ← getitem means "BALANCE"; Ok (1000 <? x)%float.
Definition high_purchases (means : gmap string float) : result bool :=
  x ← getitem means "PURCHASES"; Ok (1000 <? x)%float.
Definition high_frequency (means : gmap string float) : result bool :=
  x ← getitem means "PURCHASES_FREQUENCY"; Ok (0.5 <? x)%float.
Definition uses_cash_advance (means : gmap string float) : result bool :=
  x ← getitem means "CASH_ADVANCE"; Ok (500 <? x)%float.
Definition high_credit_limit (means : gmap string float) : result bool :=
  x ← getitem means "CREDIT_LIMIT"; Ok (5000 <? x)%float.
Definition pays_full (means : gmap string float) : result bool :=
  x ← getitem means "PRC_FULL_PAYMENT"; Ok (0.3 <? x)%float.

Section App.

(** *** The library calls the program relies on *)

(** [np.log] on a float64.  It is total: outside its domain numpy warns
    and returns nan or -inf, it does not raise. *)
Variable np_log : float → float.

(** [Series.mean()] of pandas. *)
Variable series_mean : Series → float.

(** [format(x, spec)] on a float, as [str.format] calls it. *)
Variable float_format : string → float → string.

(** The fitted stages, [kmeans.predict(pca.transform(scaler.transform(X)))],
    artifacts loaded by [load_models]. *)
Variable pipeline_predict : DataFrame → result (list Z).

(** *** [str.format] with automatically numbered fields

    The template is scanned once; [field] holds the text read since an
    opening brace.  The program's templates only have fields of the shape
    [{:spec}] and no doubled braces, which is all that is interpreted. *)

Definition format_field (field : string) (x : float) : result string :=
  match field with
  | EmptyString => Ok (float_format "" x)
  | String ":"%char spec => Ok (float_format spec x)
  | _ => Raise ValueError
  end.

Fixpoint str_format_from (tmpl : string) (field : option string)
    (args : list float) : result string :=
  match tmpl, field with
  | EmptyString, None => Ok EmptyString
  | EmptyString, Some _ => Raise ValueError
  | String c rest, None =>
      if Ascii.eqb c "{"%char then str_format_from rest (Some EmptyString) args
      else if Ascii.eqb c "}"%char then Raise ValueError
      else s ← str_format_from rest None args; Ok (String c s)
  | String c rest, Some f =>
      if Ascii.eqb c "}"%char then
        match args with
        | [] => Raise IndexError
        | x :: args' =>
            v ← format_field f x;
            s ← str_format_from rest None args';
            Ok (v +:+ s)
        end
      else str_format_from rest (Some (f +:+ String c EmptyString)) args
  end.

Definition str_format (tmpl : string) (args : list float) : result string :=
  str_format_from tmpl None args.

(** *** [create_cluster_description] *)

Definition create_cluster_description (cluster_id : Z)
    (means : gmap string float) : result Description :=
  high_balance ← high_balance means;
  high_purchases ← high_purchases means;
  high_frequency ← high_frequency means;
  uses_cash_advance ← uses_cash_advance means;
  high_credit_limit ← high_credit_limit means;
  pays_full ← pays_full means;
  if bool_decide (cluster_id = 0) then
    if high_purchases && high_frequency then
      if (pays_full : bool) then
        a ← getitem means "PURCHASES_FREQUENCY";
        b ← getitem means "PURCHASES";
        c ← getitem means "PRC_FULL_PAYMENT";
        text ← str_format template_active_solvent [a; b; c];
        Ok {| name := "Активные платежеспособные клиенты";
              description := text;
              key_features := ["Высокая активность"; "Ответственные платежи";
                               "Высокий оборот"] |}
      else
        a ← getitem means "PURCHASES_FREQUENCY";
        b ← getitem means "PURCHASES";
        c ← getitem means "BALANCE";
        text ← str_format template_active_installments [a; b; c];
        Ok {| name := "Активные клиенты с рассрочкой";
              description := text;
              key_features := ["Высокая активность"; "Использование рассрочки";
                               "Регулярные покупки"] |}
    else
      a ← getitem means "PURCHASES_FREQUENCY";
      b ← getitem means "PURCHASES";
      text ← str_format template_moderate [a; b];
      Ok {| name := "Умеренные пользователи";
            description := text;
            key_features := ["Умеренная активность"; "Стабильное использование";
                             "Регулярные платежи"] |}
  else
    if uses_cash_advance && negb high_purchases then
      a ← getitem means "CASH_ADVANCE";
      b ← getitem means "PURCHASES_FREQUENCY";
      c ← getitem means "CASH_ADVANCE_FREQUENCY";
      d ← getitem means "CREDIT_LIMIT";
      text ← str_format template_cash_advance [a; b; c; d];
      Ok {| name := "Клиенты с денежными авансами";
            description := text;
            key_features := ["Денежные авансы"; "Низкая активность покупок";
                             "Требует внимания"] |}
    else if negb high_purchases && negb high_frequency then
      a ← getitem means "PURCHASES_FREQUENCY";
      b ← getitem means "PURCHASES";
      c ← getitem means "BALANCE";
      text ← str_format template_low_activity [a; b; c];
      Ok {| name := "Малоактивные клиенты";
            description := text;
            key_features := ["Низкая активность"; "Минимальное использование";
                             "Требует активации"] |}
    else
      text ← str_format template_unusual [];
      Ok {| name := "Клиенты с особым поведением";
            description := text;
            key_features := ["Особое поведение"; "Требует анализа"] |}.

(** *** The log(1+x) step: [for col in cols: df[col] = np.log(1 + df[col])] *)

(** [np.log(1 + s)]: on an int64 column the sum is an int64 (it wraps),
    converted to float64 by [np.log]. *)
Definition np_log1p (s : Series) : Series :=
  match s with
  | FloatSeries xs => FloatSeries ((λ x, np_log (1 + x)%float) <$> xs)
  | IntSeries xs => FloatSeries ((λ z, np_log (of_Z (wrap64 (1 + z)))) <$> xs)
  end.

Definition log_column (df_log : DataFrame) (col : string) : result DataFrame :=
  s ← df_getitem df_log col;
  Ok (df_assign df_log col (np_log1p s)).

Definition log_columns (cols : list string) (df : DataFrame) : result DataFrame :=
  for_each log_column cols df.

(** *** [load_data_and_analyze_clusters], from the cleaned frame on *)

(** [df.mean()] *)
Definition df_mean (df : DataFrame) : gmap string float :=
  series_mean <$> columns df.

(** One turn of [for cluster_id in range(2)]. *)
Definition analyze_cluster (df : DataFrame)
    (cluster_analysis : gmap Z ClusterInfo) (cluster_id : Z)
    : result (gmap Z ClusterInfo) :=
  cluster_data ← df_where_eq df "cluster_id" cluster_id;
  let cluster_means := df_mean cluster_data in
  description ← create_cluster_description cluster_id cluster_means;
  ratio ← truediv (Z.of_nat (df_len cluster_data)) (Z.of_nat (df_len df));
  Ok (<[cluster_id := {| ci_means := cluster_means;
                         ci_description := description;
                         ci_size := df_len cluster_data;
                         ci_percentage := (ratio * 100)%float |}]>
        cluster_analysis).

(** The argument is [df] as it stands after the cleaning of the CSV
    (the dropped id column, [dropna], [fillna]). *)
Definition load_data_and_analyze_clusters (df : DataFrame)
    : result (gmap Z ClusterInfo) :=
  df_log ← log_columns Analyze.cols_log df;
  clusters ← pipeline_predict df_log;
  df ← df_setitem_array df "cluster_id" clusters;
  for_each (analyze_cluster df) (range 2) ∅.

(** *** The prediction button's handler *)

(** From [df_input] to [cluster]. *)
Definition predict_cluster (df_input : DataFrame) : result Z :=
  df_processed ← log_columns Request.cols_log df_input;
  clusters ← pipeline_predict df_processed;
  match clusters with
  | cluster :: _ => Ok cluster
  | [] => Raise IndexError
  end.

(** [cluster_analysis[cluster]] *)
Definition cluster_info (cluster_analysis : gmap Z ClusterInfo) (cluster : Z)
    : result ClusterInfo :=
  match cluster_analysis !! cluster with
  | Some info => Ok info
  | None => Raise (KeyError (KInt cluster))
  end.

End App.

(** ** Vocabulary of the statements *)

(** The six profiles the decision rule can return. *)
Inductive Profile : Type :=
| ActiveSolvent
| ActiveInstallments
| ModerateUsers
| CashAdvanceUsers
| LowActivity
| UnusualBehavior.

(** The name each branch of [create_cluster_description] gives its profile. *)
Definition profile_name (p : Profile) : string :=
  match p with
  | ActiveSolvent => "Активные платежеспособные клиенты"
  | ActiveInstallments => "Активные клиенты с рассрочкой"
  | ModerateUsers => "Умеренные пользователи"
  | CashAdvanceUsers => "Клиенты с денежными авансами"
  | LowActivity => "Малоактивные клиенты"
  | UnusualBehavior => "Клиенты с особым поведением"
  end.

(** ... and its key-feature tags. *)
Definition profile_tags (p : Profile) : list string :=
  match p with
  | ActiveSolvent =>
      ["Высокая активность"; "Ответственные платежи"; "Высокий оборот"]
  | ActiveInstallments =>
      ["Высокая активность"; "Использование рассрочки"; "Регулярные покупки"]
  | ModerateUsers =>
      ["Умеренная активность"; "Стабильное использование"; "Регулярные платежи"]
  | CashAdvanceUsers =>
      ["Денежные авансы"; "Низкая активность покупок"; "Требует внимания"]
  | LowActivity =>
      ["Низкая активность"; "Минимальное использование"; "Требует активации"]
  | UnusualBehavior => ["Особое поведение"; "Требует анализа"]
  end.

Definition is_profile (p : Profile) (d : Description) : Prop :=
  name d = profile_name p ∧ key_features d = profile_tags p.

(** The branch the if/else ladder takes, by the values of the predicates. *)
Definition branch_of (cluster_id : Z) (hp hf pf uca : bool) : Profile :=
  if bool_decide (cluster_id = 0) then
    if hp && hf then (if pf then ActiveSolvent else ActiveInstallments)
    else ModerateUsers
  else
    if uca && negb hp then CashAdvanceUsers
    else if negb hp && negb hf then LowActivity
    else UnusualBehavior.

(** The fields the six predicates read. *)
Definition predicate_fields : list string :=
  ["BALANCE"; "PURCHASES"; "PURCHASES_FREQUENCY"; "CASH_ADVANCE";
   "CREDIT_LIMIT"; "PRC_FULL_PAYMENT"].

(** The fields [create_cluster_description] reads: those of the predicates
    and the one more that only the cash-advance narrative prints. *)
Definition rule_fields : list string :=
  predicate_fields ++ ["CASH_ADVANCE_FREQUENCY"].

(** The columns of a customer record. *)
Definition feature_columns : list string :=
  ["BALANCE"; "BALANCE_FREQUENCY"; "PURCHASES"; "ONEOFF_PURCHASES";
   "INSTALLMENTS_PURCHASES"; "CASH_ADVANCE"; "PURCHASES_FREQUENCY";
   "ONEOFF_PURCHASES_FREQUENCY"; "PURCHASES_INSTALLMENTS_FREQUENCY";
   "CASH_ADVANCE_FREQUENCY"; "CASH_ADVANCE_TRX"; "PURCHASES_TRX";
   "CREDIT_LIMIT"; "PAYMENTS"; "MINIMUM_PAYMENTS"; "PRC_FULL_PAYMENT";
   "TENURE"].

(** The columns the log step leaves alone. *)
Definition untouched_columns : list string :=
  ["PURCHASES"; "BALANCE_FREQUENCY"; "PURCHASES_FREQUENCY";
   "CASH_ADVANCE_FREQUENCY"; "TENURE"].

Definition has_fields {V} (fields : list string) (m : gmap string V) : Prop :=
  Forall (λ k, is_Some (m !! k)) fields.

(** Number of rows labelled [cluster_id]. *)
Definition rows_of (cluster_id : Z) (clusters : list Z) : nat :=
  length (filter (λ c, c = cluster_id) clusters).

(** The share the loop stores for a group of [size] rows out of [total]:
    [size / total * 100] in binary64. *)
Definition stored_percentage (size total : nat) : float :=
  (of_Z (Z.of_nat size) / of_Z (Z.of_nat total) * 100)%float.

(** ** The rational value of a binary64 number *)

(** The rational a finite binary64 value stands for, read off its sign,
    mantissa and exponent; [None] for NaN and the infinities. *)
Definition SF2Q (x : spec_float) : option Q :=
  match x with
  | S754_zero _ => Some 0%Q
  | S754_finite s m e => Some (inject_Z (cond_Zopp s (Z.pos m)) * 2 ^ e)%Q
  | _ => None
  end.

Definition float_value (x : float) : option Q := SF2Q (Prim2SF x).

(** Half the distance between 1 and the next binary64 number is 2^-53; the
    bounds below use the coarser 2^-52. *)
Definition rel_err : Q := 1 # 2 ^ 52.

(** [v] is within relative error [rel_err] of the non-negative [x]. *)
Definition close_to (v x : Q) : Prop :=
  (x * (1 - rel_err) <= v ∧ v <= x * (1 + rel_err))%Q.

(** [x] is a positive normal binary64 number of value [v] whose exponent is
    between [lo] and [hi]. *)
Definition normal_pos (x : spec_float) (lo hi : Z) (v : Q) : Prop :=
  ∃ m e, x = S754_finite false m e
         ∧ Z.pos (digits2_pos m) = 53
         ∧ lo ≤ e ≤ hi
         ∧ (v == inject_Z (Z.pos m) * 2 ^ e)%Q.

(** [v] is within [tol] of [x]. *)
Definition within (tol v x : Q) : Prop := (x - tol <= v ∧ v <= x + tol)%Q.

(** The exact share of [size] rows among [total], in percent. *)
Definition exact_percentage (size total : nat) : Q :=
  (inject_Z (100 * Z.of_nat size) / inject_Z (Z.of_nat total))%Q.

(** The tolerance of the percentage properties: 1e-13. *)
Definition float_tolerance : Q := 1 # 10 ^ 13.

(** ** Stand-ins for the library calls

    Used only to run the embedding on concrete inputs; every theorem below is
    stated for arbitrary library functions. *)
Module Fixture.
Definition np_log (x : float) : float := x.

(** Left-to-right sum over the count; nan on an empty column. *)
Definition series_mean (s : Series) : float :=
  match s with
  | FloatSeries xs => (foldl PrimFloat.add 0%float xs / of_Z (Z.of_nat (length xs)))%float
  | IntSeries xs => (of_Z (foldl Z.add 0%Z xs) / of_Z (Z.of_nat (length xs)))%float
  end.

Definition float_format (spec : string) (x : float) : string :=
  "<" +:+ spec +:+ ">".

(** A model that labels the rows as given. *)
Definition labelling (clusters : list Z) (X : DataFrame) : result (list Z) :=
  Ok clusters.

(** [n] customers with the form's default entries, but for the balance. *)
Definition customers (n : nat) (balance : float) : DataFrame :=
  {| index := seq 0 n;
     columns :=
       list_to_map
         [("BALANCE", FloatSeries (replicate n balance));
          ("BALANCE_FREQUENCY", FloatSeries (replicate n 0.5%float));
          ("PURCHASES", FloatSeries (replicate n 500%float));
          ("ONEOFF_PURCHASES", FloatSeries (replicate n 100%float));
          ("INSTALLMENTS_PURCHASES", FloatSeries (replicate n 200%float));
          ("CASH_ADVANCE", FloatSeries (replicate n 0%float));
          ("PURCHASES_FREQUENCY", FloatSeries (replicate n 0.5%float));
          ("ONEOFF_PURCHASES_FREQUENCY", FloatSeries (replicate n 0.3%float));
          ("PURCHASES_INSTALLMENTS_FREQUENCY", FloatSeries (replicate n 0.3%float));
          ("CASH_ADVANCE_FREQUENCY", FloatSeries (replicate n 0%float));
          ("CASH_ADVANCE_TRX", IntSeries (replicate n 0));
          ("PURCHASES_TRX", IntSeries (replicate n 10));
          ("CREDIT_LIMIT", FloatSeries (replicate n 3000%float));
          ("PAYMENTS", FloatSeries (replicate n 500%float));
          ("MINIMUM_PAYMENTS", FloatSeries (replicate n 100%float));
          ("PRC_FULL_PAYMENT", FloatSeries (replicate n 0.3%float));
          ("TENURE", IntSeries (replicate n 12))] |}.

(** Two customers: an active payer of the full balance and a dormant one. *)
Definition two_customers : DataFrame :=
  {| index := [0%nat; 1%nat];
     columns :=
       list_to_map
         [("BALANCE", FloatSeries [2000; 50]%float);
          ("BALANCE_FREQUENCY", FloatSeries [1; 0.2]%float);
          ("PURCHASES", FloatSeries [1500; 10]%float);
          ("ONEOFF_PURCHASES", FloatSeries [1000; 10]%float);
          ("INSTALLMENTS_PURCHASES", FloatSeries [500; 0]%float);
          ("CASH_ADVANCE", FloatSeries [0; 0]%float);
          ("PURCHASES_FREQUENCY", FloatSeries [0.8; 0.05]%float);
          ("ONEOFF_PURCHASES_FREQUENCY", FloatSeries [0.5; 0.05]%float);
          ("PURCHASES_INSTALLMENTS_FREQUENCY", FloatSeries [0.5; 0]%float);
          ("CASH_ADVANCE_FREQUENCY", FloatSeries [0; 0]%float);
          ("CASH_ADVANCE_TRX", IntSeries [0; 0]);
          ("PURCHASES_TRX", IntSeries [40; 1]);
          ("CREDIT_LIMIT", FloatSeries [7000; 1000]%float);
          ("PAYMENTS", FloatSeries [1500; 20]%float);
          ("MINIMUM_PAYMENTS", FloatSeries [300; 20]%float);
          ("PRC_FULL_PAYMENT", FloatSeries [0.5; 0]%float);
          ("TENURE", IntSeries [12; 12])] |}.

(** The form's default entries as the one-row frame of a request. *)
Definition default_input : DataFrame :=
  Request.df_input 1000 0.5 500 100 200 0 0.5 0.3 0.3 0 0 10 3000 500 100 0.3 12.

(** Means of an active, solvent segment. *)
Definition means_active : gmap string float :=
  list_to_map [("BALANCE", 2000%float); ("PURCHASES", 1500%float);
               ("PURCHASES_FREQUENCY", 0.8%float); ("CASH_ADVANCE", 0%float);
               ("CASH_ADVANCE_FREQUENCY", 0%float); ("CREDIT_LIMIT", 6000%float);
               ("PRC_FULL_PAYMENT", 0.5%float)].

(** Means of a dormant segment. *)
Definition means_low : gmap string float :=
  list_to_map [("BALANCE", 50%float); ("PURCHASES", 10%float);
               ("PURCHASES_FREQUENCY", 0.05%float); ("CASH_ADVANCE", 0%float);
               ("CASH_ADVANCE_FREQUENCY", 0%float); ("CREDIT_LIMIT", 1000%float);
               ("PRC_FULL_PAYMENT", 0%float)].

(** Every predicate's field exactly on its threshold. *)
Definition means_boundary : gmap string float :=
  list_to_map [("BALANCE", 1000%float); ("PURCHASES", 1000%float);
               ("PURCHASES_FREQUENCY", 0.5%float); ("CASH_ADVANCE", 500%float);
               ("CASH_ADVANCE_FREQUENCY", 0%float); ("CREDIT_LIMIT", 5000%float);
               ("PRC_FULL_PAYMENT", 0.3%float)].

(** Only the six fields of the predicates, cash advances above 500 and
    purchases below 1000. *)
Definition means_six : gmap string float :=
  list_to_map [("BALANCE", 50%float); ("PURCHASES", 10%float);
               ("PURCHASES_FREQUENCY", 0.05%float); ("CASH_ADVANCE", 600%float);
               ("CREDIT_LIMIT", 1000%float); ("PRC_FULL_PAYMENT", 0%float)].
End Fixture.

(** ** The rest of the program *)

(** *** Cleaning of the frame read from the CSV

    [df.dropna(subset=[col])] and [Series.fillna(value)]; an int64 column
    holds no nan. *)

Definition series_notna (s : Series) : list bool :=
  match s with
  | FloatSeries xs => (λ x, negb (is_nan x)) <$> xs
  | IntSeries xs => (λ _, true) <$> xs
  end.

(** The exception's payload, pandas' list of the labels it misses, is kept
    as the one label. *)
Definition df_dropna (df : DataFrame) (col : string) : result DataFrame :=
  s ← df_getitem df col;
  let mask := series_notna s in
  Ok {| index := filter_mask mask (index df);
        columns := series_filter mask <$> columns df |}.

Definition series_fillna (s : Series) (value : float) : Series :=
  match s with
  | FloatSeries xs => FloatSeries ((λ x, if is_nan x then value else x) <$> xs)
  | IntSeries xs => IntSeries xs
  end.

Section Cleaning.

(** [Series.median()] of pandas. *)
Variable series_median : Series → float.

(** The two cleaning lines of [load_data_and_analyze_clusters] that follow
    the dropping of the id column. *)
Definition clean_data (df : DataFrame) : result DataFrame :=
  df ← df_dropna df "CREDIT_LIMIT";
  payments ← df_getitem df "MINIMUM_PAYMENTS";
  payments' ← df_getitem df "MINIMUM_PAYMENTS";
  Ok (df_assign df "MINIMUM_PAYMENTS"
        (series_fillna payments (series_median payments'))).

End Cleaning.

(** *** What the prediction handler and the overview read and format *)

(** [needle in haystack] on strings. *)
Fixpoint str_in (needle haystack : string) : bool :=
  String.prefix needle haystack
  || match haystack with
     | EmptyString => false
     | String _ rest => str_in needle rest
     end.

Definition key_metrics : list string :=
  ["BALANCE"; "PURCHASES"; "PURCHASES_FREQUENCY"; "CREDIT_LIMIT";
   "PAYMENTS"; "CASH_ADVANCE"; "PRC_FULL_PAYMENT"].

(** [s.drop(label)] on a Series: [KeyError] when the label is not there
    (pandas' message is not kept, the label is). *)
Definition series_drop (s : gmap string float) (label : string)
    : result (gmap string float) :=
  match s !! label with
  | Some _ => Ok (delete label s)
  | None => Raise (KeyError (KStr label))
  end.

Section Display.

Variable np_log : float → float.
Variable float_format : string → float → string.
Variable pipeline_predict : DataFrame → result (list Z).

(** The text given to [st.metric] for one key metric: the conditional
    expression over the metric's name. *)
Definition metric_text (means_df : gmap string float) (metric : string)
    : result string :=
  if str_in "BALANCE" metric || str_in "PURCHASES" metric
     || str_in "PAYMENTS" metric || str_in "CREDIT_LIMIT" metric
     || str_in "CASH_ADVANCE" metric || str_in "MINIMUM_PAYMENTS" metric
  then x ← getitem means_df metric; Ok ("$" +:+ float_format ",.2f" x)
  else if str_in "FREQUENCY" metric || str_in "PAYMENT" metric
  then x ← getitem means_df metric; Ok (float_format ".2%" x)
  else x ← getitem means_df metric; Ok (float_format ".0f" x).

(** From [cluster_analysis[cluster]] to the texts of the key metrics; the
    widget calls in between format values that are there and are left out. *)
Definition segment_metrics (cluster_analysis : gmap Z ClusterInfo)
    (cluster : Z) : result (list (string * string)) :=
  info ← cluster_info cluster_analysis cluster;
  means_df ← series_drop (ci_means info) "cluster_id";
  mapM (λ metric, text ← metric_text means_df metric; Ok (metric, text))
    key_metrics.

(** The handler of the prediction button, from the input frame on. *)
Definition handle_request (cluster_analysis : gmap Z ClusterInfo)
    (df_input : DataFrame) : result (Z * list (string * string)) :=
  cluster ← predict_cluster np_log pipeline_predict df_input;
  metrics ← segment_metrics cluster_analysis cluster;
  Ok (cluster, metrics).

(** The overview at the end of the page: per cluster id of [range(2)] the
    name, the narrative, the size and the share it shows. *)
Definition overview (cluster_analysis : gmap Z ClusterInfo)
    : result (list (string * string * nat * float)) :=
  mapM (λ cluster_id,
          info ← cluster_info cluster_analysis cluster_id;
          Ok (name (ci_description info), description (ci_description info),
              ci_size info, ci_percentage info))
    (range 2).

End Display.

(** ** More vocabulary *)

(** The first of [fields] that [m] does not hold. *)
Fixpoint first_missing {V} (fields : list string) (m : gmap string V)
    : option string :=
  match fields with
  | [] => None
  | k :: fields' =>
      match m !! k with
      | None => Some k
      | Some _ => first_missing fields' m
      end
  end.

(** Every column is as long as the index. *)
Definition well_formed (df : DataFrame) : Prop :=
  ∀ k s, columns df !! k = Some s → series_len s = df_len df.

Definition no_nan (s : Series) : Prop :=
  match s with
  | FloatSeries xs => Forall (λ x, is_nan x = false) xs
  | IntSeries _ => True
  end.

(** The rows of [df] labelled [cluster_id], with the label column. *)
Definition cluster_rows (df : DataFrame) (clusters : list Z) (cluster_id : Z)
    : DataFrame :=
  let mask := (λ x, bool_decide (x = cluster_id)) <$> clusters in
  {| index := filter_mask mask (index df);
     columns :=
       series_filter mask <$> <["cluster_id" := IntSeries clusters]> (columns df) |}.

(** The entry the analysis stores for [cluster_id], given the narrative. *)
Definition cluster_entry (series_mean : Series → float) (df : DataFrame)
    (clusters : list Z) (cluster_id : Z) (d : Description) : ClusterInfo :=
  {| ci_means := series_mean <$> columns (cluster_rows df clusters cluster_id);
     ci_description := d;
     ci_size := df_len (cluster_rows df clusters cluster_id);
     ci_percentage :=
       stored_percentage (df_len (cluster_rows df clusters cluster_id)) (df_len df) |}.

(** More sample data. *)
Module Sample.

Definition series_median (s : Series) : float := 150%float.

(** Three accounts; the second has no credit limit, the third no minimum
    payment on record. *)
Definition raw : DataFrame :=
  {| index := [0%nat; 1%nat; 2%nat];
     columns :=
       list_to_map
         [("BALANCE", FloatSeries [40; 3200; 12]%float);
          ("CREDIT_LIMIT", FloatSeries [1000; nan; 2500]%float);
          ("MINIMUM_PAYMENTS", FloatSeries [140; 600; nan]%float);
          ("TENURE", IntSeries [12; 12; 6])] |}.

(** Means that lack the credit limit. *)
Definition means_without_limit : gmap string float :=
  delete "CREDIT_LIMIT" Fixture.means_low.

(** Means of a segment that lives on cash advances. *)
Definition means_cash : gmap string float :=
  <["CASH_ADVANCE" := 900%float]> Fixture.means_low.

(** The means of an empty group. *)
Definition means_nan : gmap string float :=
  list_to_map ((λ k, (k, nan)) <$> rule_fields).

(** What the analysis returns on the two customers for given labels (the
    empty mapping stands for an exception), evaluated once. *)
Definition analysis_of (labels : list Z) : gmap Z ClusterInfo :=
  match load_data_and_analyze_clusters Fixture.np_log Fixture.series_mean
          Fixture.float_format (Fixture.labelling labels) Fixture.two_customers
  with
  | Ok cluster_analysis => cluster_analysis
  | Raise _ => ∅
  end.

Definition analysis01 : gmap Z ClusterInfo := Eval vm_compute in analysis_of [0; 1].
Definition analysis02 : gmap Z ClusterInfo := Eval vm_compute in analysis_of [0; 2].
Definition analysis31 : gmap Z ClusterInfo := Eval vm_compute in analysis_of [3; 1].

(** The raw accounts after cleaning. *)
Definition cleaned : DataFrame :=
  Eval vm_compute in
    match clean_data series_median raw with
    | Ok df => df
    | Raise _ => raw
    end.

(** The default request after the log step. *)
Definition logged_input : DataFrame :=
  Eval vm_compute in
    match log_columns Fixture.np_log Request.cols_log Fixture.default_input with
    | Ok df => df
    | Raise _ => Fixture.default_input
    end.

(** Three customers with a balance of 1000, after the log step. *)
Definition logged_customers : DataFrame :=
  Eval vm_compute in
    match log_columns Fixture.np_log Analyze.cols_log (Fixture.customers 3 1000) with
    | Ok df => df
    | Raise _ => Fixture.customers 3 1000
    end.

End Sample.

(** * Properties *)

(** ** The embedding on small inputs *)

Example of_Z_exact : of_Z 3 = 3%float ∧ of_Z (-5) = (-5)%float.
Proof. split; reflexivity. Qed.

Example of_Z_rounds_to_even : of_Z (2 ^ 53 + 1) = 9007199254740992%float.
Proof. reflexivity. Qed.

Example wrap64_at_the_top : wrap64 (1 + (2 ^ 63 - 1)) = - 2 ^ 63 ∧ wrap64 (1 + 41) = 42.
Proof. split; reflexivity. Qed.

Example truediv_by_zero : truediv 0 0 = Raise ZeroDivisionError.
Proof. reflexivity. Qed.

Example str_format_fills_in_order :
  str_format Fixture.float_format "a ({:.2%}) b (${:.2f})" [1; 2]%float
  = Ok "a (<.2%>) b ($<.2f>)".
Proof. reflexivity. Qed.

Example str_format_too_few_arguments :
  str_format Fixture.float_format "({:.2%}) ({:.2f})" [1%float] = Raise IndexError.
Proof. reflexivity. Qed.

Example filter_mask_selects : filter_mask [true; false; true] [10; 20; 30] = [10; 30].
Proof. reflexivity. Qed.

(** Two rows, one per cluster: the active customer's cluster is named
    active-solvent, the dormant one's low-activity, sizes 1 and 1, shares 50
    and 50. *)
Example analysis_of_two_customers :
  (cluster_analysis ← load_data_and_analyze_clusters Fixture.np_log
                        Fixture.series_mean Fixture.float_format
                        (Fixture.labelling [0; 1]) Fixture.two_customers;
   info0 ← cluster_info cluster_analysis 0;
   info1 ← cluster_info cluster_analysis 1;
   Ok (name (ci_description info0), name (ci_description info1),
       ci_size info0, ci_size info1, ci_percentage info0, ci_percentage info1))
  = Ok (profile_name ActiveSolvent, profile_name LowActivity,
        1%nat, 1%nat, 50%float, 50%float).
Proof. vm_compute. reflexivity. Qed.

(** A label the analysis never saw has no entry to look up. *)
Example unseen_cluster_lookup_fails :
  (cluster_analysis ← load_data_and_analyze_clusters Fixture.np_log
                        Fixture.series_mean Fixture.float_format
                        (Fixture.labelling [0; 1]) Fixture.two_customers;
   cluster_info cluster_analysis 5)
  = Raise (KeyError (KInt 5)).
Proof. vm_compute. reflexivity. Qed.

(** The request path on the form's defaults, with a model answering 1. *)
Example predict_cluster_on_defaults :
  predict_cluster Fixture.np_log (Fixture.labelling [1]) Fixture.default_input
  = Ok 1.
Proof. vm_compute. reflexivity. Qed.

(** ** The [result] monad *)

Lemma bind_Ok {A B} (f : A → result B) (a : A) : (Ok a ≫= f) = f a.
Proof. reflexivity. Qed.

Lemma bind_is_Ok {A B} (f : A → result B) (m : result A) (b : B) :
  m ≫= f = Ok b → ∃ a, m = Ok a ∧ f a = Ok b.
Proof. destruct m as [a|e]; [eauto | discriminate]. Qed.

Lemma getitem_Some {V} (m : gmap string V) k v :
  m !! k = Some v → getitem m k = Ok v.
Proof. unfold getitem. by intros ->. Qed.

(** ** The narrative templates format *)

Section Format.
Variable fmt : string → float → string.

Lemma format_active_solvent a b c :
  is_Ok (str_format fmt template_active_solvent [a; b; c]).
Proof. eexists. vm_compute. reflexivity. Qed.

Lemma format_active_installments a b c :
  is_Ok (str_format fmt template_active_installments [a; b; c]).
Proof. eexists. vm_compute. reflexivity. Qed.

Lemma format_moderate a b :
  is_Ok (str_format fmt template_moderate [a; b]).
Proof. eexists. vm_compute. reflexivity. Qed.

Lemma format_cash_advance a b c d :
  is_Ok (str_format fmt template_cash_advance [a; b; c; d]).
Proof. eexists. vm_compute. reflexivity. Qed.

Lemma format_low_activity a b c :
  is_Ok (str_format fmt template_low_activity [a; b; c]).
Proof. eexists. vm_compute. reflexivity. Qed.

Lemma format_unusual :
  is_Ok (str_format fmt template_unusual []).
Proof. eexists. vm_compute. reflexivity. Qed.
End Format.

#[local] Opaque str_format.

(** ** The decision rule *)

Lemma profile_name_inj p q : profile_name p = profile_name q → p = q.
Proof. destruct p, q; intros H; first [reflexivity | discriminate H]. Qed.

Lemma is_profile_unique p q d : is_profile p d → is_profile q d → p = q.
Proof. intros [Hp _] [Hq _]. apply profile_name_inj. congruence. Qed.

(** With its seven fields present the rule returns the profile of the branch
    that [branch_of] names. *)
Lemma rule_branch fmt cluster_id (means : gmap string float) b p f ca cl prc caf :
  means !! "BALANCE" = Some b →
  means !! "PURCHASES" = Some p →
  means !! "PURCHASES_FREQUENCY" = Some f →
  means !! "CASH_ADVANCE" = Some ca →
  means !! "CREDIT_LIMIT" = Some cl →
  means !! "PRC_FULL_PAYMENT" = Some prc →
  means !! "CASH_ADVANCE_FREQUENCY" = Some caf →
  ∃ d, create_cluster_description fmt cluster_id means = Ok d
       ∧ is_profile
           (branch_of cluster_id (1000 <? p)%float (0.5 <? f)%float
              (0.3 <? prc)%float (500 <? ca)%float) d.
Proof.
  intros Hb Hp Hf Hca Hcl Hprc Hcaf.
  unfold create_cluster_description, branch_of, high_balance, high_purchases,
    high_frequency, uses_cash_advance, high_credit_limit, pays_full.
  rewrite !(getitem_Some _ _ _ Hb), !(getitem_Some _ _ _ Hp),
    !(getitem_Some _ _ _ Hf), !(getitem_Some _ _ _ Hca),
    !(getitem_Some _ _ _ Hcl), !(getitem_Some _ _ _ Hprc),
    ?(getitem_Some _ _ _ Hcaf).
  rewrite !bind_Ok.
  destruct (bool_decide (cluster_id = 0));
    destruct (1000 <? p)%float, (0.5 <? f)%float, (0.3 <? prc)%float,
      (500 <? ca)%float; cbn [andb negb];
    rewrite ?(getitem_Some _ _ _ Hcaf), ?bind_Ok;
    match goal with
    | |- context [str_format fmt ?t ?args] =>
        let s := fresh "s" in let Hs := fresh "Hs" in
        assert (is_Ok (str_format fmt t args)) as [s Hs]
          by first [ apply format_active_solvent | apply format_active_installments
                   | apply format_moderate | apply format_cash_advance
                   | apply format_low_activity | apply format_unusual ];
        rewrite Hs, bind_Ok
    end;
    (eexists; split; [reflexivity | split; reflexivity]).
Qed.

Lemma rule_fields_lookup (means : gmap string float) :
  has_fields rule_fields means →
  ∃ b p f ca cl prc caf,
    means !! "BALANCE" = Some b ∧ means !! "PURCHASES" = Some p ∧
    means !! "PURCHASES_FREQUENCY" = Some f ∧ means !! "CASH_ADVANCE" = Some ca ∧
    means !! "CREDIT_LIMIT" = Some cl ∧ means !! "PRC_FULL_PAYMENT" = Some prc ∧
    means !! "CASH_ADVANCE_FREQUENCY" = Some caf.
Proof.
  unfold has_fields, rule_fields, predicate_fields. cbn [app].
  rewrite !Forall_cons.
  intros ([b ?] & [p ?] & [f ?] & [ca ?] & [cl ?] & [prc ?] & [caf ?] & _).
  by exists b, p, f, ca, cl, prc, caf.
Qed.

(** Every cluster id but 0 goes through the [else] of the ladder, whatever
    the means are. *)
Lemma rule_else_branch fmt cluster_id (means : gmap string float) :
  cluster_id ≠ 0 →
  create_cluster_description fmt cluster_id means
  = create_cluster_description fmt 1 means.
Proof.
  intros Hne. unfold create_cluster_description.
  rewrite (bool_decide_eq_false_2 (cluster_id = 0)) by done.
  rewrite (bool_decide_eq_false_2 (1 = 0)) by done.
  reflexivity.
Qed.

Lemma rule_returns fmt cluster_id (means : gmap string float) :
  has_fields rule_fields means →
  is_Ok (create_cluster_description fmt cluster_id means).
Proof.
  intros Hfields. apply rule_fields_lookup in Hfields
    as (b & p & f & ca & cl & prc & caf & Hb & Hp & Hf & Hca & Hcl & Hprc & Hcaf).
  destruct (rule_branch fmt cluster_id means _ _ _ _ _ _ _ Hb Hp Hf Hca Hcl Hprc Hcaf)
    as (d & Hd & _).
  by exists d.
Qed.

Ltac profile_clash :=
  match goal with
  | H1 : is_profile ?p ?d, H2 : is_profile ?q ?d |- _ =>
      discriminate (is_profile_unique _ _ _ H1 H2)
  end.

Ltac solve_has_fields :=
  unfold has_fields; apply (bool_decide_unpack _); vm_compute; exact I.

(** C1: with the fields the rule reads present in the means, cluster id 0
    yields the active-solvent profile iff purchases and frequency are high
    and full payment is common, the installments profile iff purchases and
    frequency are high and full payment is not, and the moderate profile
    otherwise; cluster id 1 yields the cash-advance profile iff cash advance
    is used and purchases are not high, else the low-activity profile iff
    neither purchases nor frequency is high, else the generic profile. *)
Theorem decision_table_first_match fmt (means : gmap string float) :
  has_fields rule_fields means →
  ∃ d0 d1,
    create_cluster_description fmt 0 means = Ok d0 ∧
    create_cluster_description fmt 1 means = Ok d1 ∧
    (is_profile ActiveSolvent d0 ↔
       high_purchases means = Ok true ∧ high_frequency means = Ok true
       ∧ pays_full means = Ok true) ∧
    (is_profile ActiveInstallments d0 ↔
       high_purchases means = Ok true ∧ high_frequency means = Ok true
       ∧ pays_full means = Ok false) ∧
    (is_profile ModerateUsers d0 ↔
       ¬ (high_purchases means = Ok true ∧ high_frequency means = Ok true)) ∧
    (is_profile CashAdvanceUsers d1 ↔
       uses_cash_advance means = Ok true ∧ high_purchases means = Ok false) ∧
    (is_profile LowActivity d1 ↔
       ¬ (uses_cash_advance means = Ok true ∧ high_purchases means = Ok false)
       ∧ high_purchases means = Ok false ∧ high_frequency means = Ok false) ∧
    (is_profile UnusualBehavior d1 ↔
       ¬ (uses_cash_advance means = Ok true ∧ high_purchases means = Ok false)
       ∧ ¬ (high_purchases means = Ok false ∧ high_frequency means = Ok false)).
Proof.
  intros Hfields. apply rule_fields_lookup in Hfields
    as (b & p & f & ca & cl & prc & caf & Hb & Hp & Hf & Hca & Hcl & Hprc & Hcaf).
  destruct (rule_branch fmt 0 means _ _ _ _ _ _ _ Hb Hp Hf Hca Hcl Hprc Hcaf)
    as (d0 & Hd0 & P0).
  destruct (rule_branch fmt 1 means _ _ _ _ _ _ _ Hb Hp Hf Hca Hcl Hprc Hcaf)
    as (d1 & Hd1 & P1).
  exists d0, d1. split; [exact Hd0 | split; [exact Hd1 |]].
  unfold high_purchases, high_frequency, pays_full, uses_cash_advance.
  rewrite !(getitem_Some _ _ _ Hp), !(getitem_Some _ _ _ Hf),
    !(getitem_Some _ _ _ Hca), !(getitem_Some _ _ _ Hprc), !bind_Ok.
  unfold branch_of in P0, P1.
  rewrite (bool_decide_eq_true_2 (0 = 0)) in P0 by done.
  rewrite (bool_decide_eq_false_2 (1 = 0)) in P1 by done.
  destruct (1000 <? p)%float, (0.5 <? f)%float, (0.3 <? prc)%float,
    (500 <? ca)%float; cbn [andb negb] in P0, P1;
    repeat apply conj; intros H;
    first [ assumption | profile_clash | exfalso; intuition congruence
          | intuition congruence ].
Qed.

(** C8: each of the six predicates is false on a mean that sits exactly on
    its threshold. *)
Theorem thresholds_are_strict (means : gmap string float) :
  (means !! "BALANCE" = Some 1000%float → high_balance means = Ok false) ∧
  (means !! "PURCHASES" = Some 1000%float → high_purchases means = Ok false) ∧
  (means !! "PURCHASES_FREQUENCY" = Some 0.5%float → high_frequency means = Ok false) ∧
  (means !! "CASH_ADVANCE" = Some 500%float → uses_cash_advance means = Ok false) ∧
  (means !! "CREDIT_LIMIT" = Some 5000%float → high_credit_limit means = Ok false) ∧
  (means !! "PRC_FULL_PAYMENT" = Some 0.3%float → pays_full means = Ok false).
Proof.
  unfold high_balance, high_purchases, high_frequency, uses_cash_advance,
    high_credit_limit, pays_full.
  repeat split; intros H; rewrite (getitem_Some _ _ _ H); reflexivity.
Qed.

(** C3 (as the code has it): a cluster id of 2 or more is handled by the
    [else] of the ladder: with the fields the rule reads present it returns,
    without any lookup error, the very profile it returns for cluster id 1,
    one of the three of that branch. *)
Theorem large_cluster_id_uses_else_branch fmt cluster_id (means : gmap string float) :
  2 ≤ cluster_id →
  has_fields rule_fields means →
  ∃ d, create_cluster_description fmt cluster_id means = Ok d
       ∧ create_cluster_description fmt 1 means = Ok d
       ∧ (is_profile CashAdvanceUsers d ∨ is_profile LowActivity d
          ∨ is_profile UnusualBehavior d).
Proof.
  intros Hge Hfields.
  assert (cluster_id ≠ 0) as Hne by lia.
  apply rule_fields_lookup in Hfields
    as (b & p & f & ca & cl & prc & caf & Hb & Hp & Hf & Hca & Hcl & Hprc & Hcaf).
  destruct (rule_branch fmt cluster_id means _ _ _ _ _ _ _ Hb Hp Hf Hca Hcl Hprc Hcaf)
    as (d & Hd & P).
  exists d. split; [exact Hd |]. split.
  - by rewrite <- (rule_else_branch fmt cluster_id means Hne).
  - unfold branch_of in P.
    rewrite (bool_decide_eq_false_2 (cluster_id = 0)) in P by done.
    destruct (500 <? ca)%float, (1000 <? p)%float, (0.5 <? f)%float;
      cbn [andb negb] in P; auto.
Qed.

(** C10 (as the code has it): with the seven fields the rule reads present
    (the six of the predicates and CASH_ADVANCE_FREQUENCY), the rule returns
    a profile record for every integer cluster id, and every id other than 0
    gets what cluster id 1 gets. *)
Theorem rule_total_over_cluster_ids fmt cluster_id (means : gmap string float) :
  has_fields rule_fields means →
  (∃ d, create_cluster_description fmt cluster_id means = Ok d)
  ∧ (cluster_id ≠ 0 →
     create_cluster_description fmt cluster_id means
     = create_cluster_description fmt 1 means).
Proof.
  intros Hfields. split.
  - exact (rule_returns fmt cluster_id means Hfields).
  - apply rule_else_branch.
Qed.

(** C9: two means that differ at most in the value of CREDIT_LIMIT get the
    same profile name and the same key-feature tags, for every cluster id
    (and the same exception when another field is missing). *)
Theorem credit_limit_does_not_select_branch fmt cluster_id
    (means1 means2 : gmap string float) :
  (∀ k, k ≠ "CREDIT_LIMIT" → means1 !! k = means2 !! k) →
  is_Some (means1 !! "CREDIT_LIMIT") →
  is_Some (means2 !! "CREDIT_LIMIT") →
  name <$> create_cluster_description fmt cluster_id means1
  = name <$> create_cluster_description fmt cluster_id means2
  ∧ key_features <$> create_cluster_description fmt cluster_id means1
    = key_features <$> create_cluster_description fmt cluster_id means2.
Proof.
  intros Hagree [cl1 Hcl1] [cl2 Hcl2].
  unfold create_cluster_description, high_balance, high_purchases,
    high_frequency, uses_cash_advance, high_credit_limit, pays_full, getitem.
  rewrite Hcl1, Hcl2.
  rewrite <- !(Hagree "BALANCE"), <- !(Hagree "PURCHASES"),
    <- !(Hagree "PURCHASES_FREQUENCY"), <- !(Hagree "CASH_ADVANCE"),
    <- !(Hagree "PRC_FULL_PAYMENT"), <- !(Hagree "CASH_ADVANCE_FREQUENCY")
    by done.
  destruct (means1 !! "BALANCE") as [b|]; [rewrite !bind_Ok | split; reflexivity].
  destruct (means1 !! "PURCHASES") as [p|]; [rewrite !bind_Ok | split; reflexivity].
  destruct (means1 !! "PURCHASES_FREQUENCY") as [f|]; [rewrite !bind_Ok | split; reflexivity].
  destruct (means1 !! "CASH_ADVANCE") as [ca|]; [rewrite !bind_Ok | split; reflexivity].
  destruct (means1 !! "PRC_FULL_PAYMENT") as [prc|]; [rewrite !bind_Ok | split; reflexivity].
  destruct (bool_decide (cluster_id = 0)), (1000 <? p)%float, (0.5 <? f)%float,
    (0.3 <? prc)%float, (500 <? ca)%float; cbn [andb negb];
    try destruct (means1 !! "CASH_ADVANCE_FREQUENCY") as [caf|];
    rewrite ?bind_Ok;
    repeat match goal with
    | |- context [str_format fmt ?t ?args] =>
        let s := fresh "s" in let Hs := fresh "Hs" in
        assert (is_Ok (str_format fmt t args)) as [s Hs]
          by first [ apply format_active_solvent | apply format_active_installments
                   | apply format_moderate | apply format_cash_advance
                   | apply format_low_activity | apply format_unusual ];
        rewrite Hs, ?bind_Ok
    end; split; reflexivity.
Qed.

(** ** The log(1+x) step *)

Section LogStep.
Variable np_log : float → float.

Lemma log_column_ok (df : DataFrame) col s :
  columns df !! col = Some s →
  log_column np_log df col = Ok (df_assign df col (np_log1p np_log s)).
Proof.
  intros H. unfold log_column, df_getitem. by rewrite (getitem_Some _ _ _ H).
Qed.

Lemma log_column_inv (df df' : DataFrame) col :
  log_column np_log df col = Ok df' →
  ∃ s, columns df !! col = Some s ∧ df' = df_assign df col (np_log1p np_log s).
Proof.
  unfold log_column, df_getitem, getitem.
  destruct (columns df !! col) as [s|]; [| discriminate].
  rewrite bind_Ok. intros [= <-]. eauto.
Qed.

(** The step keeps the index and every column it is not told to touch. *)
Lemma log_columns_frame cols : ∀ df df' : DataFrame,
  log_columns np_log cols df = Ok df' →
  index df' = index df
  ∧ ∀ k, k ∉ cols → columns df' !! k = columns df !! k.
Proof.
  induction cols as [|c cols IH]; intros df df' Hrun.
  - injection Hrun as <-. auto.
  - cbn in Hrun. apply bind_is_Ok in Hrun as (df1 & Hc & Hrest).
    apply log_column_inv in Hc as (s & Hs & ->).
    apply IH in Hrest as [Hidx Hkeep]. split; [exact Hidx |].
    intros k Hk. apply not_elem_of_cons in Hk as [Hne Hk].
    rewrite (Hkeep k Hk). cbn. by rewrite lookup_insert_ne.
Qed.

(** On columns that are all there the step cannot fail, and each listed
    column ends as [np.log(1 + column)]. *)
Lemma log_columns_ok cols : ∀ df : DataFrame,
  NoDup cols →
  has_fields cols (columns df) →
  ∃ df', log_columns np_log cols df = Ok df'
         ∧ ∀ c, c ∈ cols → columns df' !! c = np_log1p np_log <$> columns df !! c.
Proof.
  induction cols as [|c cols IH]; intros df Hnd Hhas.
  - exists df. split; [reflexivity |]. intros c Hc. by apply elem_of_nil in Hc.
  - apply NoDup_cons in Hnd as [Hnotin Hnd].
    apply Forall_cons in Hhas as [[s Hs] Hhas].
    destruct (IH (df_assign df c (np_log1p np_log s)) Hnd) as (df' & Hrun & Hlog).
    { eapply Forall_impl; [exact Hhas |]. cbn. intros k [v Hv].
      destruct (decide (c = k)) as [<- | Hne].
      - rewrite lookup_insert_eq. eauto.
      - rewrite lookup_insert_ne by done. eauto. }
    exists df'. split.
    + cbn. rewrite (log_column_ok df c s Hs), bind_Ok. exact Hrun.
    + intros k Hk. apply elem_of_cons in Hk as [-> | Hk].
      * destruct (log_columns_frame cols _ _ Hrun) as [_ Hkeep].
        rewrite (Hkeep c Hnotin). cbn. by rewrite lookup_insert_eq, Hs.
      * rewrite (Hlog k Hk). cbn.
        rewrite lookup_insert_ne; [done |]. intros ->. done.
Qed.
End LogStep.

Lemma cols_log_NoDup : NoDup Analyze.cols_log.
Proof. apply (bool_decide_unpack _). vm_compute. exact I. Qed.

Lemma cols_log_features : Analyze.cols_log ⊆ feature_columns.
Proof. apply (bool_decide_unpack _). vm_compute. exact I. Qed.

Lemma untouched_not_logged :
  Forall (λ k, k ∉ Analyze.cols_log) untouched_columns.
Proof. apply (bool_decide_unpack _). vm_compute. exact I. Qed.

Lemma has_fields_subseteq {V} (ks ks' : list string) (m : gmap string V) :
  ks ⊆ ks' → has_fields ks' m → has_fields ks m.
Proof.
  unfold has_fields. rewrite !Forall_forall. intros Hsub H k Hk. apply H, Hsub, Hk.
Qed.

(** C7: the two code paths list the same twelve columns, so their
    log(1+x) steps are one and the same function. *)
Theorem log_step_same_on_both_paths :
  Analyze.cols_log = Request.cols_log
  ∧ length Analyze.cols_log = 12%nat
  ∧ NoDup Analyze.cols_log
  ∧ ∀ np_log df,
      log_columns np_log Analyze.cols_log df
      = log_columns np_log Request.cols_log df.
Proof.
  split; [reflexivity |]. split; [reflexivity |].
  split; [exact cols_log_NoDup | reflexivity].
Qed.

(** C6: on a record with all its columns the log step returns a record with
    the same rows in which every column outside the twelve listed ones, so
    each of PURCHASES, BALANCE_FREQUENCY, PURCHASES_FREQUENCY,
    CASH_ADVANCE_FREQUENCY and TENURE, is the input's, and each listed
    column holds [np.log(1 + v)] for the input's [v]. *)
Theorem log_step_changes_only_listed_columns np_log (df : DataFrame) :
  has_fields feature_columns (columns df) →
  ∃ df', log_columns np_log Request.cols_log df = Ok df'
         ∧ index df' = index df
         ∧ (∀ k, k ∉ Request.cols_log → columns df' !! k = columns df !! k)
         ∧ Forall (λ k, columns df' !! k = columns df !! k) untouched_columns
         ∧ (∀ k, k ∈ Request.cols_log →
              columns df' !! k = np_log1p np_log <$> columns df !! k).
Proof.
  intros Hvalid.
  destruct (log_columns_ok np_log Request.cols_log df cols_log_NoDup)
    as (df' & Hrun & Hlog).
  { exact (has_fields_subseteq _ _ _ cols_log_features Hvalid). }
  destruct (log_columns_frame np_log _ _ _ Hrun) as [Hidx Hkeep].
  exists df'. repeat split; try assumption.
  eapply Forall_impl; [exact untouched_not_logged |].
  intros k Hk. exact (Hkeep k Hk).
Qed.

(** C2 (as the code has it): the log step raises nothing on account of a
    value: whenever the twelve listed columns are present it returns, and
    every value [v] of a listed float column, below -1 or not, has become
    [np.log(1 + v)]. *)
Theorem log_step_never_rejects_a_value np_log (df : DataFrame) :
  has_fields Analyze.cols_log (columns df) →
  ∃ df', log_columns np_log Analyze.cols_log df = Ok df'
         ∧ (∀ c xs, c ∈ Analyze.cols_log →
              columns df !! c = Some (FloatSeries xs) →
              columns df' !! c
              = Some (FloatSeries ((λ v, np_log (1 + v)%float) <$> xs)))
         ∧ (∀ c zs, c ∈ Analyze.cols_log →
              columns df !! c = Some (IntSeries zs) →
              columns df' !! c
              = Some (FloatSeries ((λ z, np_log (of_Z (wrap64 (1 + z)))) <$> zs))).
Proof.
  intros Hhas.
  destruct (log_columns_ok np_log Analyze.cols_log df cols_log_NoDup Hhas)
    as (df' & Hrun & Hlog).
  exists df'. split; [exact Hrun |].
  split; intros c xs Hc Hxs; by rewrite (Hlog c Hc), Hxs.
Qed.

(** ** The cluster analysis *)

Lemma filter_mask_rows (v : Z) (clusters : list Z) : ∀ idx : list nat,
  length clusters = length idx →
  length (filter_mask ((λ x, bool_decide (x = v)) <$> clusters) idx)
  = rows_of v clusters.
Proof.
  unfold rows_of.
  induction clusters as [|c cs IH]; intros [|i idx] Hlen; try discriminate Hlen.
  { reflexivity. }
  injection Hlen as Hlen. cbn [fmap list_fmap filter_mask].
  rewrite filter_cons. case_bool_decide as Hc.
  - rewrite decide_True by done. cbn. by rewrite IH.
  - rewrite decide_False by done. by rewrite IH.
Qed.

Lemma rows_of_partition (clusters : list Z) :
  Forall (λ c, c = 0 ∨ c = 1) clusters →
  (rows_of 0 clusters + rows_of 1 clusters = length clusters)%nat.
Proof.
  unfold rows_of. induction 1 as [|c cs [-> | ->] _ IH]; [done | |].
  - rewrite filter_cons_True, filter_cons_False by done. cbn. lia.
  - rewrite filter_cons_False, filter_cons_True by done. cbn. lia.
Qed.

(** In exact arithmetic the two shares of a whole add up to 100. *)
Lemma shares_sum (a b n : Z) :
  a + b = n → n ≠ 0 →
  (inject_Z (100 * a) / inject_Z n + inject_Z (100 * b) / inject_Z n == 100)%Q.
Proof.
  intros <- Hn. rewrite !inject_Z_mult, inject_Z_plus.
  field. intros H. apply Hn. rewrite <- inject_Z_plus in H.
  change 0%Q with (inject_Z 0) in H. by apply inject_Z_injective.
Qed.

(** ** Binary64 rounding of the percentages

    The bounds are derived from the definitions of the binary64 operations
    ([SpecFloat]) and their link to the primitive ones ([FloatAxioms]). *)

Lemma digits2_pos_bounds (p : positive) :
  2 ^ (Z.pos (digits2_pos p) - 1) ≤ Z.pos p < 2 ^ Z.pos (digits2_pos p).
Proof.
  induction p as [p IH | p IH |]; cbn [digits2_pos].
  - rewrite Pos2Z.inj_succ.
    replace (Z.succ (Z.pos (digits2_pos p)) - 1)
      with (Z.succ (Z.pos (digits2_pos p) - 1)) by lia.
    rewrite !Z.pow_succ_r by lia. lia.
  - rewrite Pos2Z.inj_succ.
    replace (Z.succ (Z.pos (digits2_pos p)) - 1)
      with (Z.succ (Z.pos (digits2_pos p) - 1)) by lia.
    rewrite !Z.pow_succ_r by lia. lia.
  - cbn. lia.
Qed.

(** The number of binary digits is fixed by the binade. *)
Lemma digits2_pos_unique (p : positive) (d : Z) :
  2 ^ (d - 1) ≤ Z.pos p < 2 ^ d → Z.pos (digits2_pos p) = d.
Proof.
  intros [Hlo Hhi]. pose proof (digits2_pos_bounds p) as [Hlo' Hhi'].
  assert (0 < d) as Hd.
  { destruct (Z.le_gt_cases d 0) as [Hle | ?]; [| done].
    assert (2 ^ d ≤ 2 ^ 0) by (apply Z.pow_le_mono_r; lia).
    change (2 ^ 0) with 1 in *. lia. }
  destruct (Z.lt_trichotomy (Z.pos (digits2_pos p)) d) as [Hlt | [Heq | Hgt]];
    [| done |].
  - assert (2 ^ Z.pos (digits2_pos p) ≤ 2 ^ (d - 1))
      by (apply Z.pow_le_mono_r; lia). lia.
  - assert (2 ^ d ≤ 2 ^ (Z.pos (digits2_pos p) - 1))
      by (apply Z.pow_le_mono_r; lia). lia.
Qed.

Lemma shr_1_div2 (mrs : shr_record) :
  0 ≤ shr_m mrs → shr_m (shr_1 mrs) = shr_m mrs / 2.
Proof.
  destruct mrs as [m r s]. intros Hm.
  destruct m as [|[p|p|]|p]; cbn in *; try lia; try reflexivity.
  - apply (Z.div_unique _ _ _ 1); lia.
  - apply (Z.div_unique _ _ _ 0); lia.
Qed.

Lemma iter_shr_1_div (p : positive) (mrs : shr_record) :
  0 ≤ shr_m mrs →
  shr_m (SpecFloat.iter_pos shr_1 p mrs) = shr_m mrs / 2 ^ Z.pos p.
Proof.
  revert mrs.
  induction p as [p IH | p IH |]; intros mrs Hm; cbn [SpecFloat.iter_pos].
  - assert (0 < 2 ^ Z.pos p) as Hp by (apply Z.pow_pos_nonneg; lia).
    assert (0 ≤ shr_m (shr_1 mrs)) as H1
      by (rewrite shr_1_div2 by done; apply Z.div_pos; lia).
    assert (0 ≤ shr_m (SpecFloat.iter_pos shr_1 p (shr_1 mrs))) as H2
      by (rewrite IH by done; apply Z.div_pos; lia).
    rewrite IH, IH, shr_1_div2 by done.
    rewrite !Z.div_div by lia. f_equal.
    replace (Z.pos p~1) with (1 + Z.pos p + Z.pos p) by lia.
    rewrite !Z.pow_add_r by lia. change (2 ^ 1) with 2. ring.
  - assert (0 < 2 ^ Z.pos p) as Hp by (apply Z.pow_pos_nonneg; lia).
    assert (0 ≤ shr_m (SpecFloat.iter_pos shr_1 p mrs)) as H2
      by (rewrite IH by done; apply Z.div_pos; lia).
    rewrite IH, IH by done.
    rewrite !Z.div_div by lia. f_equal.
    replace (Z.pos p~0) with (Z.pos p + Z.pos p) by lia.
    by rewrite !Z.pow_add_r by lia.
  - by rewrite shr_1_div2.
Qed.

Lemma loc_of_shr_record_of_loc m l :
  loc_of_shr_record (shr_record_of_loc m l) = l.
Proof. by destruct l as [|[]]. Qed.

Lemma shr_m_record_of_loc m l : shr_m (shr_record_of_loc m l) = m.
Proof. by destruct l as [|[]]. Qed.

Lemma round_nearest_even_cases m l :
  round_nearest_even m l = m ∨ round_nearest_even m l = m + 1.
Proof. destruct l as [|[]]; cbn; try destruct (Z.even m); auto. Qed.

(** Truncation to 53 digits when the exponent stays in the normal range. *)
Lemma shr_fexp_normal (p : positive) (e : Z) (l : location) :
  53 ≤ Z.pos (digits2_pos p) →
  -1074 ≤ Z.pos (digits2_pos p) + e - 53 →
  ∃ mrs,
    shr_fexp 53 1024 (Z.pos p) e l = (mrs, e + (Z.pos (digits2_pos p) - 53))
    ∧ shr_m mrs = Z.pos p / 2 ^ (Z.pos (digits2_pos p) - 53)
    ∧ (Z.pos (digits2_pos p) = 53 → mrs = shr_record_of_loc (Z.pos p) l).
Proof.
  intros Hd He. unfold shr_fexp, fexp, emin. cbn [Zdigits2].
  rewrite Z.max_l by lia.
  replace (Z.pos (digits2_pos p) + e - 53 - e)
    with (Z.pos (digits2_pos p) - 53) by lia.
  destruct (Z.pos (digits2_pos p) - 53) as [|k|k] eqn:Hk; [| | lia].
  - eexists. cbn [shr]. split; [by rewrite Z.add_0_r|].
    split; [|done]. by rewrite shr_m_record_of_loc, Z.div_1_r.
  - eexists. cbn [shr]. split; [done|]. split; [|lia].
    rewrite iter_shr_1_div by (rewrite shr_m_record_of_loc; lia).
    by rewrite shr_m_record_of_loc.
Qed.

(** Rounding a mantissa of at least 53 digits to binary64: the result is
    one of the two neighbours of the truncated mantissa. *)
Lemma binary_round_aux_normal (sx : bool) (p : positive) (ex : Z) (lx : location) :
  let d := Z.pos (digits2_pos p) in
  let M := Z.pos p / 2 ^ (d - 53) in
  let E := ex + (d - 53) in
  53 ≤ d → -1074 ≤ E → E + 1 ≤ 971 →
  ∃ m e,
    binary_round_aux 53 1024 sx (Z.pos p) ex lx = S754_finite sx m e
    ∧ Z.pos (digits2_pos m) = 53
    ∧ ((e = E ∧ (Z.pos m = M ∨ Z.pos m = M + 1))
       ∨ (e = E + 1 ∧ 2 * Z.pos m = M + 1))
    ∧ (d = 53 → lx = loc_Exact → e = ex ∧ m = p).
Proof.
  intros d M E Hd HE1 HE2.
  destruct (shr_fexp_normal p ex lx) as (mrs & Hshr & Hm & Hexact);
    [done | subst E d; lia |].
  fold d in Hshr, Hm, Hexact. fold M in Hm. fold E in Hshr.
  assert (2 ^ 52 ≤ M < 2 ^ 53) as HM.
  { pose proof (digits2_pos_bounds p) as [Hlo Hhi]. fold d in Hlo, Hhi.
    assert (0 < 2 ^ (d - 53)) by (apply Z.pow_pos_nonneg; lia).
    assert (2 ^ (d - 1) = 2 ^ 52 * 2 ^ (d - 53)) as Hlo2
      by (rewrite <- Z.pow_add_r by lia; f_equal; lia).
    assert (2 ^ d = 2 ^ 53 * 2 ^ (d - 53)) as Hhi2
      by (rewrite <- Z.pow_add_r by lia; f_equal; lia).
    rewrite Hlo2 in Hlo. rewrite Hhi2 in Hhi.
    subst M. split.
    - apply Z.div_le_lower_bound; lia.
    - apply Z.div_lt_upper_bound; lia. }
  unfold binary_round_aux. rewrite Hshr.
  set (M' := round_nearest_even (shr_m mrs) (loc_of_shr_record mrs)).
  assert (M' = M ∨ M' = M + 1) as HM'
    by (subst M'; rewrite Hm; apply round_nearest_even_cases).
  assert (d = 53 → lx = loc_Exact → M' = Z.pos p ∧ E = ex) as HM'exact.
  { intros Hd53 ->. subst M'. rewrite Hexact by done. cbn. subst E. lia. }
  clearbody M'. destruct M' as [|q|q]; [lia | | lia].
  destruct (decide (Z.pos q = 2 ^ 53)) as [Hover | Hin].
  - assert (Z.pos (digits2_pos q) = 54) as Hq
      by (apply digits2_pos_unique; lia).
    destruct (shr_fexp_normal q E loc_Exact) as (mrs2 & -> & Hm2 & _);
      [lia | lia |].
    rewrite Hm2, Hq, Hover. change (2 ^ 53 `div` 2 ^ (54 - 53)) with (Z.pos (2 ^ 52)).
    replace (E + (54 - 53) <=? 1024 - 53) with true by lia.
    exists (2 ^ 52)%positive, (E + (54 - 53)).
    split; [done|]. split; [done|]. split; [right; lia|].
    intros Hd53 Hlx. destruct (HM'exact Hd53 Hlx) as [Hp _].
    pose proof (digits2_pos_bounds p) as [_ Hhi]. fold d in Hhi.
    rewrite Hd53 in Hhi. lia.
  - assert (Z.pos (digits2_pos q) = 53) as Hq
      by (apply digits2_pos_unique; lia).
    destruct (shr_fexp_normal q E loc_Exact) as (mrs2 & -> & Hm2 & _);
      [lia | lia |].
    rewrite Hm2, Hq. change (2 ^ (53 - 53)) with 1. rewrite Z.div_1_r.
    replace (E + (53 - 53) <=? 1024 - 53) with true by lia.
    exists q, (E + (53 - 53)).
    split; [done|]. split; [done|]. split; [left; lia|].
    intros Hd53 Hlx. destruct (HM'exact Hd53 Hlx) as [Hp HE]. split; [lia|].
    congruence.
Qed.

Lemma pow2_pos (e : Z) : (0 < 2 ^ e)%Q.
Proof. by apply Qpower_0_lt. Qed.

Lemma pow2_add (a b : Z) : (2 ^ (a + b) == 2 ^ a * 2 ^ b)%Q.
Proof. by apply Qpower_plus. Qed.

Lemma pow2_inject (k : Z) : 0 ≤ k → (2 ^ k == inject_Z (2 ^ k))%Q.
Proof. intros Hk. by rewrite Zpower_Qpower. Qed.

(** Rounding to binary64 moves a positive number by at most one unit in the
    last place, a relative error of at most 2^-52. *)
Lemma binary_round_aux_close (p : positive) (ex : Z) (lx : location)
    (lo hi : Z) (x : Q) :
  53 ≤ Z.pos (digits2_pos p) →
  -1074 ≤ lo → hi ≤ 970 →
  lo ≤ ex + (Z.pos (digits2_pos p) - 53) ≤ hi →
  (inject_Z (Z.pos p) * 2 ^ ex <= x)%Q →
  (x <= inject_Z (Z.pos p + 1) * 2 ^ ex)%Q →
  ∃ v, normal_pos (binary_round_aux 53 1024 false (Z.pos p) ex lx) lo (hi + 1) v
       ∧ close_to v x.
Proof.
  intros Hd Hlo Hhi HE Hxlo Hxhi.
  destruct (binary_round_aux_normal false p ex lx) as (m & e & -> & Hm & Hcases & _);
    [done | lia | lia |].
  set (k := Z.pos (digits2_pos p) - 53) in *.
  set (M := Z.pos p `div` 2 ^ k) in *.
  set (E := ex + k) in *.
  assert (0 < 2 ^ k) as HK by (apply Z.pow_pos_nonneg; lia).
  assert (2 ^ 52 ≤ M) as HM.
  { pose proof (digits2_pos_bounds p) as [Hlo' _].
    assert (2 ^ (Z.pos (digits2_pos p) - 1) = 2 ^ 52 * 2 ^ k) as Heq
      by (rewrite <- Z.pow_add_r by lia; f_equal; lia).
    rewrite Heq in Hlo'. apply Z.div_le_lower_bound; lia. }
  assert (M * 2 ^ k ≤ Z.pos p ∧ Z.pos p + 1 ≤ (M + 1) * 2 ^ k) as [HMlo HMhi].
  { pose proof (Z.div_mod (Z.pos p) (2 ^ k)) as Hdm.
    pose proof (Z.mod_pos_bound (Z.pos p) (2 ^ k) HK). fold M in Hdm. lia. }
  pose proof (pow2_pos E) as HB. pose proof (pow2_pos ex) as Hb.
  assert (2 ^ E == 2 ^ ex * inject_Z (2 ^ k))%Q as HBb
    by (subst E; rewrite pow2_add, (pow2_inject k) by lia; reflexivity).
  assert (inject_Z M * 2 ^ E <= x)%Q as Hx1.
  { rewrite HBb. apply Qle_trans with (inject_Z (Z.pos p) * 2 ^ ex)%Q; [|done].
    rewrite (Zle_Qle), inject_Z_mult in HMlo.
    assert ((inject_Z M * (2 ^ ex * inject_Z (2 ^ k)))%Q == ((inject_Z M * inject_Z (2 ^ k)) * 2 ^ ex)%Q)%Q as -> by ring.
    apply Qmult_le_compat_r; [done | lra]. }
  assert (x <= (inject_Z M + 1) * 2 ^ E)%Q as Hx2.
  { rewrite HBb. apply Qle_trans with (inject_Z (Z.pos p + 1) * 2 ^ ex)%Q; [done|].
    rewrite (Zle_Qle), inject_Z_mult, !inject_Z_plus in HMhi.
    rewrite inject_Z_plus.
    assert (((inject_Z M + 1) * (2 ^ ex * inject_Z (2 ^ k)))%Q == (((inject_Z M + inject_Z 1) * inject_Z (2 ^ k)) * 2 ^ ex)%Q)%Q as -> by ring.
    apply Qmult_le_compat_r; [done | lra]. }
  assert (inject_Z (2 ^ 52) * 2 ^ E <= inject_Z M * 2 ^ E)%Q as Hx3.
  { apply Qmult_le_compat_r; [by rewrite <- Zle_Qle | lra]. }
  assert (inject_Z (Z.pos m) * 2 ^ e == inject_Z M * 2 ^ E
          ∨ inject_Z (Z.pos m) * 2 ^ e == (inject_Z M + 1) * 2 ^ E)%Q as Hv.
  { destruct Hcases as [[-> [Hmm | Hmm]] | [-> Hmm]].
    - left. by rewrite Hmm.
    - right. rewrite Hmm, inject_Z_plus. reflexivity.
    - right. rewrite pow2_add. 
      assert (inject_Z (2 * Z.pos m) = inject_Z (M + 1)) as Hq by congruence.
      rewrite inject_Z_mult, inject_Z_plus in Hq.
      change (2 ^ 1)%Q with 2%Q. 
      assert ((inject_Z (Z.pos m) * (2 ^ E * 2))%Q == ((inject_Z 2 * inject_Z (Z.pos m)) * 2 ^ E)%Q)%Q as -> by ring.
      rewrite Hq. reflexivity. }
  exists (inject_Z (Z.pos m) * 2 ^ e)%Q. split.
  - exists m, e. split; [done|]. split; [done|]. split; [lia | reflexivity].
  - unfold close_to, rel_err.
    change (inject_Z (2 ^ 52)) with (4503599627370496 # 1)%Q in Hx3.
    change (1 # 2 ^ 52)%Q with (1 # 4503599627370496)%Q.
    destruct Hv as [Hv | Hv]; rewrite Hv; lra.
Qed.

Lemma digits2_pos_range (p : positive) (lo hi : Z) :
  0 ≤ lo → 2 ^ lo ≤ Z.pos p < 2 ^ hi → lo < Z.pos (digits2_pos p) ≤ hi.
Proof.
  intros Hlo0 [Hlo Hhi]. pose proof (digits2_pos_bounds p) as [Hlo' Hhi'].
  split.
  - apply (Z.pow_lt_mono_r_iff 2); lia.
  - destruct (Z.le_gt_cases (Z.pos (digits2_pos p)) hi) as [|Hgt]; [done|].
    assert (0 ≤ hi).
    { destruct (Z.le_gt_cases 0 hi); [done|].
      rewrite Z.pow_neg_r in Hhi by lia. lia. }
    assert (2 ^ hi ≤ 2 ^ (Z.pos (digits2_pos p) - 1))
      by (apply Z.pow_le_mono_r; lia). lia.
Qed.

Lemma normal_valid (s : bool) (m : positive) (e : Z) :
  Z.pos (digits2_pos m) = 53 → -1074 ≤ e ≤ 971 →
  valid_binary (S754_finite s m e) = true.
Proof.
  intros Hm He. unfold SpecFloat.valid_binary, bounded, canonical_mantissa.
  rewrite Hm. unfold fexp, emin, prec, emax.
  apply andb_true_intro. split; [apply Z.eqb_eq | apply Z.leb_le]; lia.
Qed.

(** Shifting a mantissa left to a smaller exponent keeps the value. *)
Lemma iter_xO_spec (q p : positive) :
  Z.pos (Pos.iter xO p q) = Z.pos p * 2 ^ Z.pos q
  ∧ Z.pos (digits2_pos (Pos.iter xO p q)) = Z.pos (digits2_pos p) + Z.pos q.
Proof.
  induction q as [|q [IH1 IH2]] using Pos.peano_ind.
  - cbn [Pos.iter digits2_pos]. split; lia.
  - rewrite Pos.iter_succ. cbn [digits2_pos].
    rewrite Pos2Z.inj_xO, !Pos2Z.inj_succ, IH1, IH2, Z.pow_succ_r by lia.
    split; lia.
Qed.

Lemma shl_align_spec (p : positive) (e e' : Z) :
  e' ≤ e →
  ∃ m, shl_align p e e' = (m, e')
       ∧ Z.pos m = Z.pos p * 2 ^ (e - e')
       ∧ Z.pos (digits2_pos m) = Z.pos (digits2_pos p) + (e - e').
Proof.
  intros He. unfold shl_align.
  destruct (e' - e) as [|q|q] eqn:Hq; [| lia |].
  - assert (e' = e) as -> by lia. exists p. rewrite Z.sub_diag.
    split; [done|]. split; lia.
  - destruct (iter_xO_spec q p) as [H1 H2].
    exists (Pos.iter xO p q). replace (e - e') with (Z.pos q) by lia. done.
Qed.

Lemma shl_align_id (p : positive) (e e' : Z) :
  e ≤ e' → shl_align p e e' = (p, e).
Proof. intros He. unfold shl_align. by destruct (e' - e) eqn:Hq; [| | lia]. Qed.

(** Row counts below 2^53 convert to binary64 without rounding. *)
Lemma of_Z_normal (a : Z) :
  0 < a < 2 ^ 53 →
  normal_pos (Prim2SF (of_Z a)) (-52) 0 (inject_Z a).
Proof.
  intros [Ha0 Ha]. destruct a as [|p|p]; [lia | | lia].
  unfold of_Z. cbn [binary_normalize]. unfold binary_round.
  pose proof (digits2_pos_range p 0 53) as Hd.
  change (2 ^ 0) with 1 in Hd. specialize (Hd ltac:(lia) ltac:(lia)).
  set (d := Z.pos (digits2_pos p)) in *.
  assert (fexp 53 1024 (d + 0) = d - 53) as ->
    by (unfold fexp, emin; lia).
  destruct (shl_align_spec p 0 (d - 53)) as (m & -> & Hm & Hdm); [lia|].
  fold d in Hdm.
  destruct (binary_round_aux_normal false m (d - 53) loc_Exact)
    as (m' & e' & Hr & Hm' & _ & Hexact); [lia | lia | lia |].
  destruct Hexact as [-> ->]; [lia | done |].
  rewrite Hr, Prim2SF_SF2Prim by (apply normal_valid; lia).
  exists m, (d - 53). split; [done|]. split; [lia|]. split; [lia|].
  rewrite Hm, inject_Z_mult.
  rewrite <- (pow2_inject (0 - (d - 53))) by lia.
  assert (2 ^ (0 - (d - 53)) * 2 ^ (d - 53) == 1)%Q as Hone.
  { rewrite <- pow2_add. by replace (0 - (d - 53) + (d - 53)) with 0 by lia. }
  rewrite <- Qmult_assoc, Hone. ring.
Qed.

Lemma normal_pos_value_pos x lo hi v : normal_pos x lo hi v → (0 < v)%Q.
Proof.
  intros (m & e & _ & _ & _ & ->). pose proof (pow2_pos e).
  assert (0 < inject_Z (Z.pos m))%Q by (by rewrite <- (Zlt_Qlt 0)).
  by apply Qmult_lt_0_compat.
Qed.

(** The binary64 product of two positive normal numbers. *)
Lemma SFmul_close x y lo1 hi1 lo2 hi2 vx vy :
  normal_pos x lo1 hi1 vx → normal_pos y lo2 hi2 vy →
  -1074 ≤ lo1 + lo2 + 52 → hi1 + hi2 + 53 ≤ 970 →
  ∃ v, normal_pos (SF64mul x y) (lo1 + lo2 + 52) (hi1 + hi2 + 54) v
       ∧ close_to v (vx * vy).
Proof.
  intros (m1 & e1 & -> & Hd1 & He1 & Hv1) (m2 & e2 & -> & Hd2 & He2 & Hv2) Hlo Hhi.
  unfold SF64mul, SFmul. cbn [xorb].
  pose proof (digits2_pos_bounds m1) as Hb1. rewrite Hd1 in Hb1.
  pose proof (digits2_pos_bounds m2) as Hb2. rewrite Hd2 in Hb2.
  change (53 - 1) with 52 in *.
  pose proof (digits2_pos_range (m1 * m2) 104 106) as Hd.
  rewrite Pos2Z.inj_mul in Hd.
  specialize (Hd ltac:(lia) ltac:(split; [change (2 ^ 104) with (2 ^ 52 * 2 ^ 52) | change (2 ^ 106) with (2 ^ 53 * 2 ^ 53)]; nia)).
  destruct (binary_round_aux_close (m1 * m2) (e1 + e2) loc_Exact
              (lo1 + lo2 + 52) (hi1 + hi2 + 53) (vx * vy))
    as (v & Hn & Hc); [lia | lia | lia | lia | | | ].
  - rewrite Hv1, Hv2, Pos2Z.inj_mul, inject_Z_mult, pow2_add. apply Qle_lteq. right. ring.
  - rewrite Hv1, Hv2, Pos2Z.inj_mul, inject_Z_plus, inject_Z_mult, pow2_add.
    pose proof (pow2_pos e1). pose proof (pow2_pos e2).
    assert (0 < 2 ^ e1 * 2 ^ e2)%Q by (by apply Qmult_lt_0_compat).
    assert ((inject_Z (Z.pos m1) * inject_Z (Z.pos m2) + inject_Z 1) * (2 ^ e1 * 2 ^ e2)
            == inject_Z (Z.pos m1) * 2 ^ e1 * (inject_Z (Z.pos m2) * 2 ^ e2)
               + 2 ^ e1 * 2 ^ e2)%Q as -> by ring.
    lra.
  - exists v. split; [|done].
    replace (hi1 + hi2 + 54) with (hi1 + hi2 + 53 + 1) by lia. done.
Qed.

(** The binary64 quotient of two positive normal numbers. *)
Lemma SFdiv_close x y lo1 hi1 lo2 hi2 vx vy :
  normal_pos x lo1 hi1 vx → normal_pos y lo2 hi2 vy →
  -1074 ≤ lo1 - hi2 - 53 → hi1 - lo2 - 52 ≤ 970 →
  ∃ v, normal_pos (SF64div x y) (lo1 - hi2 - 53) (hi1 - lo2 - 51) v
       ∧ close_to v (vx / vy).
Proof.
  intros (m1 & e1 & -> & Hd1 & He1 & Hv1) (m2 & e2 & -> & Hd2 & He2 & Hv2) Hlo Hhi.
  unfold SF64div, SFdiv, SFdiv_core_binary. cbn [xorb Zdigits2].
  rewrite Hd1, Hd2.
  assert (Z.min (fexp prec emax (53 + e1 - (53 + e2))) (e1 - e2) = e1 - e2 - 53) as ->
    by (unfold fexp, emin, prec, emax; lia).
  replace (e1 - e2 - (e1 - e2 - 53)) with 53 by lia.
  rewrite Z.shiftl_mul_pow2 by lia.
  pose proof (digits2_pos_bounds m1) as Hb1. rewrite Hd1 in Hb1.
  pose proof (digits2_pos_bounds m2) as Hb2. rewrite Hd2 in Hb2.
  change (53 - 1) with 52 in *.
  pose proof (Z_div_mod (Z.pos m1 * 2 ^ 53) (Z.pos m2) ltac:(lia)) as Hdm.
  destruct (Z.div_eucl (Z.pos m1 * 2 ^ 53) (Z.pos m2)) as [q r].
  destruct Hdm as [Hqr Hr].
  assert (2 ^ 52 ≤ q < 2 ^ 54) as Hq.
  { change (2 ^ 54) with (2 * 2 ^ 53). nia. }
  destruct q as [|pq|pq]; [lia | | lia].
  pose proof (digits2_pos_range pq 52 54 ltac:(lia) Hq) as Hdq.
  pose proof (pow2_pos e1) as Hp1. pose proof (pow2_pos e2) as Hp2.
  pose proof (pow2_pos (e1 - e2 - 53)) as Hp3.
  assert (0 < inject_Z (Z.pos m2))%Q as Hm2 by (by rewrite <- (Zlt_Qlt 0)).
  assert (2 ^ e1 == 2 ^ (e1 - e2 - 53) * inject_Z (2 ^ 53) * 2 ^ e2)%Q as Hpow.
  { rewrite <- (pow2_inject 53), <- !pow2_add by lia.
    by replace (e1 - e2 - 53 + 53 + e2) with e1 by lia. }
  assert (vx / vy == inject_Z (Z.pos m1 * 2 ^ 53) / inject_Z (Z.pos m2)
                     * 2 ^ (e1 - e2 - 53))%Q as Hquot.
  { rewrite Hv1, Hv2, Hpow, inject_Z_mult. field. split; lra. }
  destruct (binary_round_aux_close pq (e1 - e2 - 53)
              (new_location (Z.pos m2) r)
              (lo1 - hi2 - 53) (hi1 - lo2 - 52) (vx / vy))
    as (v & Hn & Hc); [lia | lia | lia | lia | | | ].
  - rewrite Hquot. apply Qmult_le_compat_r; [|lra].
    apply Qle_shift_div_l; [done|].
    rewrite <- inject_Z_mult, <- Zle_Qle. lia.
  - rewrite Hquot. apply Qmult_le_compat_r; [|lra].
    apply Qle_shift_div_r; [done|].
    rewrite <- inject_Z_mult, <- Zle_Qle. lia.
  - exists v. split; [|done].
    replace (hi1 - lo2 - 51) with (hi1 - lo2 - 52 + 1) by lia. done.
Qed.

(** The binary64 sum of two positive normal numbers. *)
Lemma SFadd_close x y lo hi vx vy :
  normal_pos x lo hi vx → normal_pos y lo hi vy →
  -1074 ≤ lo → hi + 1 ≤ 970 →
  ∃ v, normal_pos (SF64add x y) lo (hi + 2) v ∧ close_to v (vx + vy).
Proof.
  intros (m1 & e1 & -> & Hd1 & He1 & Hv1) (m2 & e2 & -> & Hd2 & He2 & Hv2) Hlo Hhi.
  unfold SF64add, SFadd. cbn [cond_Zopp].
  set (ez := Z.min e1 e2).
  destruct (shl_align_spec m1 e1 ez) as (s1 & -> & Hs1 & Hds1); [lia|].
  destruct (shl_align_spec m2 e2 ez) as (s2 & -> & Hs2 & Hds2); [lia|].
  cbn [fst]. change (Z.pos s1 + Z.pos s2) with (Z.pos (s1 + s2)).
  cbn [binary_normalize]. unfold binary_round.
  pose proof (digits2_pos_bounds s1) as Hb1. rewrite Hds1, Hd1 in Hb1.
  pose proof (digits2_pos_bounds s2) as Hb2. rewrite Hds2, Hd2 in Hb2.
  assert (2 ^ (53 + (hi - ez)) = 2 ^ 53 * 2 ^ (hi - ez)) as Hpow
    by (rewrite Z.pow_add_r; lia).
  assert (2 ^ 52 ≤ Z.pos (s1 + s2) < 2 ^ (54 + (hi - ez))) as Hs.
  { rewrite Pos2Z.inj_add. split.
    - assert (Z.pos s1 = Z.pos m1 ∨ Z.pos s2 = Z.pos m2) as [Heq | Heq].
      { destruct (Z.le_ge_cases e1 e2); [left | right].
        - replace (e1 - ez) with 0 in Hs1 by lia. lia.
        - replace (e2 - ez) with 0 in Hs2 by lia. lia. }
      + pose proof (digits2_pos_bounds m1) as Hm. rewrite Hd1 in Hm.
        change (53 - 1) with 52 in Hm. lia.
      + pose proof (digits2_pos_bounds m2) as Hm. rewrite Hd2 in Hm.
        change (53 - 1) with 52 in Hm. lia.
    - replace (54 + (hi - ez)) with (Z.succ (53 + (hi - ez))) by lia.
      rewrite Z.pow_succ_r by lia.
      assert (2 ^ (53 + (e1 - ez)) ≤ 2 ^ (53 + (hi - ez)))
        by (apply Z.pow_le_mono_r; lia).
      assert (2 ^ (53 + (e2 - ez)) ≤ 2 ^ (53 + (hi - ez)))
        by (apply Z.pow_le_mono_r; lia).
      lia. }
  pose proof (digits2_pos_range (s1 + s2) 52 _ ltac:(lia) Hs) as Hd.
  set (d := Z.pos (digits2_pos (s1 + s2))) in *.
  assert (fexp prec emax (d + ez) = d + ez - 53) as ->
    by (unfold fexp, emin, prec, emax; lia).
  rewrite shl_align_id by lia.
  destruct (binary_round_aux_close (s1 + s2) ez loc_Exact lo (hi + 1) (vx + vy))
    as (v & Hn & Hc); [subst d; lia | lia | lia | subst d; lia | | | ].
  - rewrite Hv1, Hv2, Pos2Z.inj_add, inject_Z_plus, Hs1, Hs2, !inject_Z_mult.
    rewrite <- !pow2_inject by lia.
    assert (2 ^ e1 == 2 ^ (e1 - ez) * 2 ^ ez)%Q as ->
      by (rewrite <- pow2_add; by replace (e1 - ez + ez) with e1 by lia).
    assert (2 ^ e2 == 2 ^ (e2 - ez) * 2 ^ ez)%Q as ->
      by (rewrite <- pow2_add; by replace (e2 - ez + ez) with e2 by lia).
    apply Qle_lteq. right. ring.
  - rewrite Hv1, Hv2, !inject_Z_plus, Pos2Z.inj_add, inject_Z_plus, Hs1, Hs2, !inject_Z_mult.
    rewrite <- !pow2_inject by lia.
    assert (2 ^ e1 == 2 ^ (e1 - ez) * 2 ^ ez)%Q as ->
      by (rewrite <- pow2_add; by replace (e1 - ez + ez) with e1 by lia).
    assert (2 ^ e2 == 2 ^ (e2 - ez) * 2 ^ ez)%Q as ->
      by (rewrite <- pow2_add; by replace (e2 - ez + ez) with e2 by lia).
    pose proof (pow2_pos ez).
    assert ((inject_Z (Z.pos m1) * 2 ^ (e1 - ez) + inject_Z (Z.pos m2) * 2 ^ (e2 - ez)
             + inject_Z 1) * 2 ^ ez
            == inject_Z (Z.pos m1) * (2 ^ (e1 - ez) * 2 ^ ez)
               + inject_Z (Z.pos m2) * (2 ^ (e2 - ez) * 2 ^ ez) + 2 ^ ez)%Q as -> by ring.
    lra.
  - exists v. split; [|done].
    replace (hi + 2) with (hi + 1 + 1) by lia. done.
Qed.

Lemma of_Z_zero : Prim2SF (of_Z 0) = S754_zero false.
Proof. unfold of_Z. cbn [binary_normalize]. by rewrite Prim2SF_SF2Prim. Qed.

Lemma hundred_normal : normal_pos (Prim2SF 100) (-46) (-46) 100.
Proof.
  exists 7036874417766400%positive, (-46). split; [by vm_compute|].
  split; [by vm_compute|]. split; [lia|]. by vm_compute.
Qed.

(** A cluster without rows has percentage zero. *)
Lemma stored_percentage_zero (total : nat) :
  0 < Z.of_nat total < 2 ^ 53 →
  Prim2SF (stored_percentage 0 total) = S754_zero false.
Proof.
  intros Htotal. destruct (of_Z_normal _ Htotal) as (m & e & Hn & _).
  destruct hundred_normal as (m' & e' & H100 & _).
  unfold stored_percentage.
  rewrite mul_spec, div_spec, Hn, H100. change (Z.of_nat 0) with 0.
  by rewrite of_Z_zero.
Qed.

(** The percentage of a cluster with rows is a normal number within two
    roundings of the exact share. *)
Lemma stored_percentage_close (size total : nat) :
  0 < Z.of_nat size → 0 < Z.of_nat total < 2 ^ 53 → (size ≤ total)%nat →
  ∃ v, normal_pos (Prim2SF (stored_percentage size total)) (-99) 9 v
       ∧ (exact_percentage size total * ((1 - rel_err) * (1 - rel_err)) <= v)%Q
       ∧ (v <= exact_percentage size total * ((1 + rel_err) * (1 + rel_err)))%Q.
Proof.
  intros Hsize Htotal Hle.
  destruct (SFdiv_close _ _ _ _ _ _ _ _
              (of_Z_normal (Z.of_nat size) ltac:(lia))
              (of_Z_normal (Z.of_nat total) Htotal))
    as (vd & Hnd & Hcd); [lia | lia |].
  destruct (SFmul_close _ _ _ _ _ _ _ _ Hnd hundred_normal)
    as (v & Hn & Hc); [lia | lia |].
  exists v. unfold stored_percentage. rewrite mul_spec, div_spec.
  split; [exact Hn|].
  assert (exact_percentage size total
          == 100 * (inject_Z (Z.of_nat size) / inject_Z (Z.of_nat total)))%Q as ->.
  { unfold exact_percentage. rewrite inject_Z_mult. unfold Qdiv. ring. }
  pose proof (normal_pos_value_pos _ _ _ _ Hnd) as Hvd.
  revert Hcd Hc. unfold close_to, rel_err.
  change (1 # 2 ^ 52)%Q with (1 # 4503599627370496)%Q.
  generalize (inject_Z (Z.of_nat size) / inject_Z (Z.of_nat total))%Q.
  intros X [Hd1 Hd2] [Hm1 Hm2]. split; lra.
Qed.

Lemma float_value_normal (x : float) lo hi v :
  normal_pos (Prim2SF x) lo hi v → ∃ v', float_value x = Some v' ∧ (v' == v)%Q.
Proof.
  intros (m & e & Hx & _ & _ & Hv). unfold float_value. rewrite Hx.
  eexists. split; [reflexivity|]. by rewrite Hv.
Qed.

Lemma exact_percentage_sum (size0 size1 total : nat) :
  (size0 + size1 = total)%nat → total ≠ 0%nat →
  (exact_percentage size0 total + exact_percentage size1 total == 100)%Q.
Proof. intros Hsum Hne. unfold exact_percentage. apply shares_sum; lia. Qed.

Lemma exact_percentage_nonneg (size total : nat) :
  total ≠ 0%nat → (0 <= exact_percentage size total)%Q.
Proof.
  intros Hne. unfold exact_percentage. apply Qle_shift_div_l.
  - rewrite <- (Zlt_Qlt 0). lia.
  - rewrite Qmult_0_l, <- (Zle_Qle 0). lia.
Qed.

Lemma exact_percentage_zero (total : nat) : (exact_percentage 0 total == 0)%Q.
Proof. unfold exact_percentage, Qdiv. change (Z.of_nat 0) with 0. change (inject_Z (100 * 0)) with 0%Q. ring. Qed.

Ltac unfold_tolerances :=
  unfold within, float_tolerance, rel_err in *;
  change (1 # 10 ^ 13)%Q with (1 # 10000000000000)%Q in *;
  change (1 # 2 ^ 52)%Q with (1 # 4503599627370496)%Q in *.

(** The stored percentages and their binary64 sum are within 1e-13 of the
    exact shares and of 100, for every dataset of fewer than 2^53 rows. *)
Lemma percentages_close (size0 size1 total : nat) :
  (size0 + size1 = total)%nat → total ≠ 0%nat → Z.of_nat total < 2 ^ 53 →
  ∃ v0 v1 vsum : Q,
    float_value (stored_percentage size0 total) = Some v0
    ∧ float_value (stored_percentage size1 total) = Some v1
    ∧ float_value (stored_percentage size0 total + stored_percentage size1 total)
      = Some vsum
    ∧ within float_tolerance v0 (exact_percentage size0 total)
    ∧ within float_tolerance v1 (exact_percentage size1 total)
    ∧ within float_tolerance vsum 100.
Proof.
  intros Hsum Hne Htotal.
  pose proof (exact_percentage_sum _ _ _ Hsum Hne) as Hx.
  pose proof (exact_percentage_nonneg size0 total Hne) as Hx0.
  pose proof (exact_percentage_nonneg size1 total Hne) as Hx1.
  destruct (decide (size0 = 0%nat)) as [-> | Hpos0];
    [| destruct (decide (size1 = 0%nat)) as [-> | Hpos1]].
  - destruct (stored_percentage_close size1 total) as (w1 & Hn1 & Hlo1 & Hhi1);
      [lia | lia | lia |].
    destruct (float_value_normal _ _ _ _ Hn1) as (v1 & Hv1 & Hv1eq).
    pose proof (exact_percentage_zero total) as Hzero.
    exists 0%Q, v1, v1.
    split; [unfold float_value; by rewrite stored_percentage_zero by lia|].
    split; [done|]. split.
    { unfold float_value in *. rewrite add_spec, stored_percentage_zero by lia.
      destruct Hn1 as (m & e & Hm & _). by rewrite Hm in *. }
    unfold_tolerances. repeat split; lra.
  - destruct (stored_percentage_close size0 total) as (w0 & Hn0 & Hlo0 & Hhi0);
      [lia | lia | lia |].
    destruct (float_value_normal _ _ _ _ Hn0) as (v0 & Hv0 & Hv0eq).
    pose proof (exact_percentage_zero total) as Hzero.
    exists v0, 0%Q, v0.
    split; [done|].
    split; [unfold float_value; by rewrite stored_percentage_zero by lia|]. split.
    { unfold float_value in *. rewrite add_spec, stored_percentage_zero by lia.
      destruct Hn0 as (m & e & Hm & _). by rewrite Hm in *. }
    unfold_tolerances. repeat split; lra.
  - destruct (stored_percentage_close size0 total) as (w0 & Hn0 & Hlo0 & Hhi0);
      [lia | lia | lia |].
    destruct (stored_percentage_close size1 total) as (w1 & Hn1 & Hlo1 & Hhi1);
      [lia | lia | lia |].
    destruct (SFadd_close _ _ _ _ _ _ Hn0 Hn1) as (ws & Hns & Hcs); [lia | lia |].
    destruct (float_value_normal _ _ _ _ Hn0) as (v0 & Hv0 & Hv0eq).
    destruct (float_value_normal _ _ _ _ Hn1) as (v1 & Hv1 & Hv1eq).
    rewrite <- add_spec in Hns.
    destruct (float_value_normal _ _ _ _ Hns) as (vs & Hvs & Hvseq).
    exists v0, v1, vs. split; [done|]. split; [done|]. split; [done|].
    unfold close_to in Hcs. destruct Hcs as [Hcs1 Hcs2].
    unfold_tolerances. repeat split; lra.
Qed.

Section Analysis.
Variable np_log : float → float.
Variable series_mean : Series → float.
Variable fmt : string → float → string.
Variable predict : DataFrame → result (list Z).

(** One turn of the loop on a labelled, non-empty frame. *)
Lemma analyze_cluster_ok (df : DataFrame) acc cluster_id clusters :
  columns df !! "cluster_id" = Some (IntSeries clusters) →
  length clusters = df_len df →
  df_len df ≠ 0%nat →
  has_fields rule_fields (columns df) →
  ∃ info,
    analyze_cluster series_mean fmt df acc cluster_id
    = Ok (<[cluster_id := info]> acc)
    ∧ ci_size info = rows_of cluster_id clusters
    ∧ ci_percentage info
      = stored_percentage (rows_of cluster_id clusters) (df_len df).
Proof.
  intros Hlab Hlen Hne Hhas.
  unfold analyze_cluster, df_where_eq, df_getitem.
  rewrite (getitem_Some _ _ _ Hlab), !bind_Ok.
  cbn [series_eq].
  set (mask := (λ x, bool_decide (x = cluster_id)) <$> clusters).
  set (cluster_data := {| index := filter_mask mask (index df);
                          columns := series_filter mask <$> columns df |}).
  assert (df_len cluster_data = rows_of cluster_id clusters) as Hsize.
  { unfold df_len, cluster_data, mask. cbn. by apply filter_mask_rows. }
  destruct (rule_returns fmt cluster_id (df_mean series_mean cluster_data))
    as [d Hd].
  { unfold has_fields in *. eapply Forall_impl; [exact Hhas |].
    intros k [s Hs]. unfold df_mean, cluster_data. cbn.
    rewrite !lookup_fmap, Hs. cbn. eauto. }
  rewrite Hd, bind_Ok. unfold truediv.
  rewrite bool_decide_eq_false_2 by lia. rewrite bind_Ok.
  eexists. split; [reflexivity |]. cbn [ci_size ci_percentage].
  split; [exact Hsize |]. unfold stored_percentage. by rewrite Hsize.
Qed.

(** The whole analysis, when the model stages return one label per row. *)
Lemma analysis_ok (df df_log : DataFrame) clusters :
  log_columns np_log Analyze.cols_log df = Ok df_log →
  predict df_log = Ok clusters →
  length clusters = df_len df →
  df_len df ≠ 0%nat →
  has_fields rule_fields (columns df) →
  ∃ info0 info1,
    load_data_and_analyze_clusters np_log series_mean fmt predict df
    = Ok (<[1 := info1]> (<[0 := info0]> ∅))
    ∧ ci_size info0 = rows_of 0 clusters
    ∧ ci_size info1 = rows_of 1 clusters
    ∧ ci_percentage info0 = stored_percentage (rows_of 0 clusters) (df_len df)
    ∧ ci_percentage info1 = stored_percentage (rows_of 1 clusters) (df_len df).
Proof.
  intros Hlog Hpred Hlen Hne Hhas.
  unfold load_data_and_analyze_clusters.
  rewrite Hlog, bind_Ok, Hpred, bind_Ok. unfold df_setitem_array.
  rewrite bool_decide_eq_true_2 by done. rewrite bind_Ok.
  set (labelled := df_assign df "cluster_id" (IntSeries clusters)).
  assert (columns labelled !! "cluster_id" = Some (IntSeries clusters)) as Hlab
    by apply lookup_insert_eq.
  assert (has_fields rule_fields (columns labelled)) as Hhas'.
  { unfold has_fields in *. eapply Forall_impl; [exact Hhas |].
    intros k Hk. cbn. apply lookup_insert_is_Some. 
    destruct (decide ("cluster_id" = k)); auto. }
  destruct (analyze_cluster_ok labelled ∅ 0 clusters Hlab Hlen Hne Hhas')
    as (info0 & Hrun0 & Hsize0 & Hpct0).
  destruct (analyze_cluster_ok labelled (<[0 := info0]> ∅) 1 clusters
              Hlab Hlen Hne Hhas')
    as (info1 & Hrun1 & Hsize1 & Hpct1).
  exists info0, info1. split; [| auto].
  change (range 2) with [0; 1]. cbn [for_each].
  rewrite Hrun0, bind_Ok, Hrun1, bind_Ok. reflexivity.
Qed.
End Analysis.

(** C4 (as the code has it): the loop runs over [range(2)] whatever labels
    the model gave, so the mapping returned has an entry for id 0 and for
    id 1 and for nothing else; the entry's size is the number of rows with
    that label, 0 for a cluster with no rows. *)
Theorem analysis_has_both_entries np_log series_mean fmt predict
    (df df_log : DataFrame) clusters :
  log_columns np_log Analyze.cols_log df = Ok df_log →
  predict df_log = Ok clusters →
  length clusters = df_len df →
  df_len df ≠ 0%nat →
  has_fields rule_fields (columns df) →
  ∃ cluster_analysis,
    load_data_and_analyze_clusters np_log series_mean fmt predict df
    = Ok cluster_analysis
    ∧ dom cluster_analysis = {[0; 1]}
    ∧ ∀ cluster_id, cluster_id = 0 ∨ cluster_id = 1 →
        ∃ info, cluster_info cluster_analysis cluster_id = Ok info
                ∧ ci_size info = rows_of cluster_id clusters.
Proof.
  intros Hlog Hpred Hlen Hne Hhas.
  destruct (analysis_ok np_log series_mean fmt predict df df_log clusters
              Hlog Hpred Hlen Hne Hhas)
    as (info0 & info1 & Hrun & Hsize0 & Hsize1 & _).
  eexists. split; [exact Hrun |]. split.
  - rewrite !dom_insert_L, dom_empty_L. set_solver.
  - intros cluster_id [-> | ->]; unfold cluster_info.
    + exists info0. by rewrite lookup_insert_ne, lookup_insert_eq.
    + exists info1. by rewrite lookup_insert_eq.
Qed.

(** C5: on a non-empty dataset whose rows all get label 0 or 1 the analysis
    returns exactly two profiles; their sizes add up to the row count; each
    percentage is the binary64 value of [size / total * 100]; the exact
    shares [100 * size / total] add up to 100; and, the row count being
    below 2^53, each stored percentage is a finite number within 1e-13 of
    its exact share and the binary64 sum of the two stored percentages is a
    finite number within 1e-13 of 100. *)
Theorem analysis_sizes_and_percentages np_log series_mean fmt predict
    (df df_log : DataFrame) clusters :
  log_columns np_log Analyze.cols_log df = Ok df_log →
  predict df_log = Ok clusters →
  length clusters = df_len df →
  df_len df ≠ 0%nat →
  has_fields rule_fields (columns df) →
  Forall (λ c, c = 0 ∨ c = 1) clusters →
  ∃ info0 info1,
    load_data_and_analyze_clusters np_log series_mean fmt predict df
    = Ok (<[1 := info1]> (<[0 := info0]> ∅))
    ∧ (ci_size info0 + ci_size info1 = df_len df)%nat
    ∧ ci_percentage info0 = stored_percentage (ci_size info0) (df_len df)
    ∧ ci_percentage info1 = stored_percentage (ci_size info1) (df_len df)
    ∧ (inject_Z (100 * Z.of_nat (ci_size info0)) / inject_Z (Z.of_nat (df_len df))
       + inject_Z (100 * Z.of_nat (ci_size info1)) / inject_Z (Z.of_nat (df_len df))
       == 100)%Q
    ∧ (Z.of_nat (df_len df) < 2 ^ 53 →
       ∃ v0 v1 vsum : Q,
         float_value (ci_percentage info0) = Some v0
         ∧ float_value (ci_percentage info1) = Some v1
         ∧ float_value (ci_percentage info0 + ci_percentage info1) = Some vsum
         ∧ within float_tolerance v0 (exact_percentage (ci_size info0) (df_len df))
         ∧ within float_tolerance v1 (exact_percentage (ci_size info1) (df_len df))
         ∧ within float_tolerance vsum 100).
Proof.
  intros Hlog Hpred Hlen Hne Hhas Hlabels.
  destruct (analysis_ok np_log series_mean fmt predict df df_log clusters
              Hlog Hpred Hlen Hne Hhas)
    as (info0 & info1 & Hrun & Hsize0 & Hsize1 & Hpct0 & Hpct1).
  assert (ci_size info0 + ci_size info1 = df_len df)%nat as Hsum.
  { rewrite Hsize0, Hsize1, <- Hlen. by apply rows_of_partition. }
  exists info0, info1. split; [exact Hrun |]. split; [exact Hsum |].
  split; [by rewrite Hsize0 |]. split; [by rewrite Hsize1 |].
  split; [apply shares_sum; lia |].
  intros Hrows. rewrite Hpct0, Hpct1, <- Hsize0, <- Hsize1.
  by apply percentages_close.
Qed.

(** Rounding does occur.  With three rows labelled 0, 1, 1 the sizes are 1
    and 2, the stored percentages are 33.333333333333329 and
    66.666666666666657, and their binary64 sum is 99.999999999999986: the
    number [100 - 2^-46], one unit in the last place below 100. *)
Example percentages_of_three_rows :
  (cluster_analysis ← load_data_and_analyze_clusters Fixture.np_log
                        Fixture.series_mean Fixture.float_format
                        (Fixture.labelling [0; 1; 1]) (Fixture.customers 3 1000);
   info0 ← cluster_info cluster_analysis 0;
   info1 ← cluster_info cluster_analysis 1;
   Ok (ci_size info0, ci_size info1, ci_percentage info0, ci_percentage info1,
       (ci_percentage info0 + ci_percentage info1)%float))
  = Ok (1%nat, 2%nat, 33.333333333333329%float, 66.666666666666657%float,
        99.999999999999986%float)
  ∧ (99.999999999999986 =? 100)%float = false
  ∧ (∃ v, float_value 99.999999999999986 = Some v
          ∧ (v == 100 - (1 # 2 ^ 46))%Q).
Proof.
  split; [by vm_compute|]. split; [by vm_compute|].
  eexists. split; [by vm_compute|]. by vm_compute.
Qed.


(** ** The theorems at concrete inputs *)

Lemma decision_table_first_match_witness :
  ∃ d0 d1,
    create_cluster_description Fixture.float_format 0 Fixture.means_active = Ok d0
    ∧ create_cluster_description Fixture.float_format 1 Fixture.means_active = Ok d1
    ∧ is_profile ActiveSolvent d0
    ∧ is_profile UnusualBehavior d1.
Proof.
  assert (has_fields rule_fields Fixture.means_active) as Hfields
    by solve_has_fields.
  destruct (decision_table_first_match Fixture.float_format Fixture.means_active
              Hfields)
    as (d0 & d1 & H0 & H1 & Hsolvent & _ & _ & _ & _ & Hunusual).
  exists d0, d1. split; [exact H0 |]. split; [exact H1 |]. split.
  - apply Hsolvent. repeat split; vm_compute; reflexivity.
  - apply Hunusual. split; intros [H _]; vm_compute in H; discriminate H.
Defined.

Lemma thresholds_are_strict_witness :
  high_balance Fixture.means_boundary = Ok false
  ∧ high_purchases Fixture.means_boundary = Ok false
  ∧ high_frequency Fixture.means_boundary = Ok false
  ∧ uses_cash_advance Fixture.means_boundary = Ok false
  ∧ high_credit_limit Fixture.means_boundary = Ok false
  ∧ pays_full Fixture.means_boundary = Ok false.
Proof.
  destruct (thresholds_are_strict Fixture.means_boundary)
    as (H1 & H2 & H3 & H4 & H5 & H6).
  refine (conj (H1 _) (conj (H2 _) (conj (H3 _) (conj (H4 _) (conj (H5 _) (H6 _))))));
    vm_compute; reflexivity.
Defined.

Lemma large_cluster_id_uses_else_branch_witness :
  ∃ d, create_cluster_description Fixture.float_format 2 Fixture.means_low = Ok d
       ∧ create_cluster_description Fixture.float_format 1 Fixture.means_low = Ok d
       ∧ (is_profile CashAdvanceUsers d ∨ is_profile LowActivity d
          ∨ is_profile UnusualBehavior d).
Proof.
  apply (large_cluster_id_uses_else_branch Fixture.float_format 2 Fixture.means_low).
  - lia.
  - solve_has_fields.
Defined.

Lemma rule_total_over_cluster_ids_witness :
  (∃ d, create_cluster_description Fixture.float_format (-7) Fixture.means_active
        = Ok d)
  ∧ (-7 ≠ 0 →
     create_cluster_description Fixture.float_format (-7) Fixture.means_active
     = create_cluster_description Fixture.float_format 1 Fixture.means_active).
Proof.
  apply (rule_total_over_cluster_ids Fixture.float_format (-7) Fixture.means_active).
  solve_has_fields.
Defined.

Lemma credit_limit_does_not_select_branch_witness :
  name <$> create_cluster_description Fixture.float_format 1 Fixture.means_low
  = name <$> create_cluster_description Fixture.float_format 1
               (<["CREDIT_LIMIT" := 9000%float]> Fixture.means_low)
  ∧ key_features <$> create_cluster_description Fixture.float_format 1 Fixture.means_low
    = key_features <$> create_cluster_description Fixture.float_format 1
                         (<["CREDIT_LIMIT" := 9000%float]> Fixture.means_low).
Proof.
  apply (credit_limit_does_not_select_branch Fixture.float_format 1).
  - intros k Hk. by rewrite lookup_insert_ne.
  - eexists. vm_compute. reflexivity.
  - eexists. apply lookup_insert_eq.
Defined.

Lemma log_step_changes_only_listed_columns_witness :
  ∃ df', log_columns Fixture.np_log Request.cols_log Fixture.default_input = Ok df'
         ∧ index df' = index Fixture.default_input
         ∧ (∀ k, k ∉ Request.cols_log →
              columns df' !! k = columns Fixture.default_input !! k)
         ∧ Forall (λ k, columns df' !! k = columns Fixture.default_input !! k)
             untouched_columns
         ∧ (∀ k, k ∈ Request.cols_log →
              columns df' !! k
              = np_log1p Fixture.np_log <$> columns Fixture.default_input !! k).
Proof.
  apply (log_step_changes_only_listed_columns Fixture.np_log Fixture.default_input).
  solve_has_fields.
Defined.

Lemma log_step_never_rejects_a_value_witness :
  ∃ df', log_columns Fixture.np_log Analyze.cols_log (Fixture.customers 1 (-2)) = Ok df'
         ∧ (∀ c xs, c ∈ Analyze.cols_log →
              columns (Fixture.customers 1 (-2)) !! c = Some (FloatSeries xs) →
              columns df' !! c
              = Some (FloatSeries ((λ v, Fixture.np_log (1 + v)%float) <$> xs)))
         ∧ (∀ c zs, c ∈ Analyze.cols_log →
              columns (Fixture.customers 1 (-2)) !! c = Some (IntSeries zs) →
              columns df' !! c
              = Some (FloatSeries
                        ((λ z, Fixture.np_log (of_Z (wrap64 (1 + z)))) <$> zs))).
Proof.
  apply (log_step_never_rejects_a_value Fixture.np_log (Fixture.customers 1 (-2))).
  solve_has_fields.
Defined.

Lemma analysis_has_both_entries_witness :
  ∃ cluster_analysis,
    load_data_and_analyze_clusters Fixture.np_log Fixture.series_mean
      Fixture.float_format (Fixture.labelling [0; 0]) (Fixture.customers 2 1000)
    = Ok cluster_analysis
    ∧ dom cluster_analysis = {[0; 1]}
    ∧ ∀ cluster_id, cluster_id = 0 ∨ cluster_id = 1 →
        ∃ info, cluster_info cluster_analysis cluster_id = Ok info
                ∧ ci_size info = rows_of cluster_id [0; 0].
Proof.
  eapply (analysis_has_both_entries Fixture.np_log Fixture.series_mean
            Fixture.float_format (Fixture.labelling [0; 0])
            (Fixture.customers 2 1000) _ [0; 0]).
  - vm_compute. reflexivity.
  - reflexivity.
  - reflexivity.
  - discriminate.
  - solve_has_fields.
Defined.

Lemma analysis_sizes_and_percentages_witness :
  ∃ info0 info1,
    load_data_and_analyze_clusters Fixture.np_log Fixture.series_mean
      Fixture.float_format (Fixture.labelling [0; 1; 1]) (Fixture.customers 3 1000)
    = Ok (<[1 := info1]> (<[0 := info0]> ∅))
    ∧ (ci_size info0 + ci_size info1 = 3)%nat
    ∧ ci_percentage info0 = stored_percentage (ci_size info0) 3
    ∧ ci_percentage info1 = stored_percentage (ci_size info1) 3
    ∧ (inject_Z (100 * Z.of_nat (ci_size info0)) / inject_Z 3
       + inject_Z (100 * Z.of_nat (ci_size info1)) / inject_Z 3 == 100)%Q
    ∧ ∃ v0 v1 vsum : Q,
        float_value (ci_percentage info0) = Some v0
        ∧ float_value (ci_percentage info1) = Some v1
        ∧ float_value (ci_percentage info0 + ci_percentage info1) = Some vsum
        ∧ within float_tolerance v0 (exact_percentage (ci_size info0) 3)
        ∧ within float_tolerance v1 (exact_percentage (ci_size info1) 3)
        ∧ within float_tolerance vsum 100.
Proof.
  assert (log_columns Fixture.np_log Analyze.cols_log (Fixture.customers 3 1000)
          = Ok Sample.logged_customers) as Hlog by (vm_compute; reflexivity).
  assert (has_fields rule_fields (columns (Fixture.customers 3 1000))) as Hhas
    by solve_has_fields.
  assert (Forall (λ c, c = 0 ∨ c = 1) [0; 1; 1]) as Hlabels
    by (apply (bool_decide_unpack _); vm_compute; exact I).
  destruct (analysis_sizes_and_percentages Fixture.np_log Fixture.series_mean
              Fixture.float_format (Fixture.labelling [0; 1; 1])
              (Fixture.customers 3 1000) Sample.logged_customers [0; 1; 1]
              Hlog eq_refl eq_refl (Nat.neq_succ_0 2) Hhas Hlabels)
    as (info0 & info1 & Hrun & Hsum & Hpct0 & Hpct1 & Hshares & Hfloat).
  exists info0, info1.
  refine (conj Hrun (conj Hsum (conj Hpct0 (conj Hpct1 (conj Hshares _))))).
  apply Hfloat. vm_compute. reflexivity.
Defined.

(** ** Where the code departs from the specification *)

(** C2: a balance of -2, below -1, goes through the log step: the step
    returns the frame with [np.log(1 + -2)] in its place and raises
    nothing. *)
Lemma log_step_accepts_value_below_minus_one :
  (-2 <? -1)%float = true
  ∧ (df' ← log_columns Fixture.np_log Analyze.cols_log (Fixture.customers 1 (-2));
     df_getitem df' "BALANCE")
    = Ok (FloatSeries [Fixture.np_log (1 + -2)%float]).
Proof. split; vm_compute; reflexivity. Qed.

(** C3: for cluster id 2 the rule returns the low-activity profile on the
    means of a dormant segment; there is no lookup error. *)
Lemma cluster_id_2_returns_a_profile :
  name <$> create_cluster_description Fixture.float_format 2 Fixture.means_low
  = Ok (profile_name LowActivity).
Proof. vm_compute. reflexivity. Qed.

(** C4: with two rows, both labelled 0, the mapping still has an entry for
    id 1: looking it up succeeds and gives size 0 and the low-activity
    profile. *)
Lemma empty_cluster_still_has_an_entry :
  rows_of 1 [0; 0] = 0%nat
  ∧ (cluster_analysis ← load_data_and_analyze_clusters Fixture.np_log
                          Fixture.series_mean Fixture.float_format
                          (Fixture.labelling [0; 0]) (Fixture.customers 2 1000);
     info ← cluster_info cluster_analysis 1;
     Ok (ci_size info, name (ci_description info)))
    = Ok (0%nat, profile_name LowActivity).
Proof. split; vm_compute; reflexivity. Qed.

(** C10: means that hold the six fields of the predicates and nothing else,
    with cash advances above 500 and purchases below 1000: for cluster id 1
    the rule raises [KeyError] on CASH_ADVANCE_FREQUENCY. *)
Lemma six_fields_do_not_suffice :
  has_fields predicate_fields Fixture.means_six
  ∧ create_cluster_description Fixture.float_format 1 Fixture.means_six
    = Raise (KeyError (KStr "CASH_ADVANCE_FREQUENCY")).
Proof. split; [solve_has_fields | vm_compute; reflexivity]. Qed.

(** * Further properties *)

(** ** Lookups *)

Lemma getitem_None {V} (m : gmap string V) k :
  m !! k = None → getitem m k = Raise (KeyError (KStr k)).
Proof. unfold getitem. by intros ->. Qed.

Lemma first_missing_None {V} (fields : list string) (m : gmap string V) :
  first_missing fields m = None ↔ has_fields fields m.
Proof.
  unfold has_fields. induction fields as [|k ks IH]; cbn.
  - split; [intros _; apply Forall_nil_2 | done].
  - rewrite Forall_cons. destruct (m !! k) as [v|] eqn:Hk.
    + rewrite IH. split; [eauto | tauto].
    + split; [discriminate | intros [[v Hv] _]; discriminate].
Qed.

Lemma first_missing_Some {V} (fields : list string) (m : gmap string V) k :
  first_missing fields m = Some k → k ∈ fields ∧ m !! k = None.
Proof.
  induction fields as [|k' ks IH]; cbn; [discriminate |].
  destruct (m !! k') eqn:Hk.
  - intros [Hin Hnone]%IH. split; [apply elem_of_cons; by right | done].
  - intros [= <-]. split; [apply elem_of_cons; by left | done].
Qed.

(** Writing to a key that is there changes no key's presence. *)
Lemma first_missing_insert {V} (fields : list string) (m : gmap string V) k v :
  is_Some (m !! k) → first_missing fields (<[k := v]> m) = first_missing fields m.
Proof.
  intros [v' Hk]. induction fields as [|k' ks IH]; cbn; [done |].
  destruct (decide (k = k')) as [<- | Hne].
  - by rewrite lookup_insert_eq, Hk.
  - rewrite lookup_insert_ne by done. by rewrite IH.
Qed.

(** ** The decision rule, field by field *)

(** A missing predicate field is reported by name, in reading order, before
    the cluster id is even looked at. *)
Lemma rule_missing_field fmt cluster_id (means : gmap string float) k :
  first_missing predicate_fields means = Some k →
  create_cluster_description fmt cluster_id means = Raise (KeyError (KStr k)).
Proof.
  unfold predicate_fields. cbn [first_missing].
  unfold create_cluster_description, high_balance, high_purchases,
    high_frequency, uses_cash_advance, high_credit_limit, pays_full.
  destruct (means !! "BALANCE") eqn:Hb;
    [rewrite (getitem_Some _ _ _ Hb), bind_Ok
    | intros [= <-]; by rewrite (getitem_None _ _ Hb)].
  destruct (means !! "PURCHASES") eqn:Hp;
    [rewrite (getitem_Some _ _ _ Hp), !bind_Ok
    | intros [= <-]; by rewrite (getitem_None _ _ Hp)].
  destruct (means !! "PURCHASES_FREQUENCY") eqn:Hf;
    [rewrite (getitem_Some _ _ _ Hf), !bind_Ok
    | intros [= <-]; by rewrite (getitem_None _ _ Hf)].
  destruct (means !! "CASH_ADVANCE") eqn:Hca;
    [rewrite (getitem_Some _ _ _ Hca), !bind_Ok
    | intros [= <-]; by rewrite (getitem_None _ _ Hca)].
  destruct (means !! "CREDIT_LIMIT") eqn:Hcl;
    [rewrite (getitem_Some _ _ _ Hcl), !bind_Ok
    | intros [= <-]; by rewrite (getitem_None _ _ Hcl)].
  destruct (means !! "PRC_FULL_PAYMENT") eqn:Hprc;
    [discriminate | intros [= <-]; by rewrite (getitem_None _ _ Hprc)].
Qed.

Lemma predicate_fields_lookup (means : gmap string float) :
  has_fields predicate_fields means →
  ∃ b p f ca cl prc,
    means !! "BALANCE" = Some b ∧ means !! "PURCHASES" = Some p ∧
    means !! "PURCHASES_FREQUENCY" = Some f ∧ means !! "CASH_ADVANCE" = Some ca ∧
    means !! "CREDIT_LIMIT" = Some cl ∧ means !! "PRC_FULL_PAYMENT" = Some prc.
Proof.
  unfold has_fields, predicate_fields. rewrite !Forall_cons.
  intros ([b ?] & [p ?] & [f ?] & [ca ?] & [cl ?] & [prc ?] & _).
  by exists b, p, f, ca, cl, prc.
Qed.

Ltac unfold_rule Hb Hp Hf Hca Hcl Hprc :=
  unfold create_cluster_description, branch_of, high_balance, high_purchases,
    high_frequency, uses_cash_advance, high_credit_limit, pays_full in *;
  rewrite !(getitem_Some _ _ _ Hb), !(getitem_Some _ _ _ Hp),
    !(getitem_Some _ _ _ Hf), !(getitem_Some _ _ _ Hca),
    !(getitem_Some _ _ _ Hcl), !(getitem_Some _ _ _ Hprc);
  rewrite !bind_Ok.

Ltac format_step fmt :=
  match goal with
  | |- context [str_format fmt ?t ?args] =>
      let s := fresh "s" in let Hs := fresh "Hs" in
      assert (is_Ok (str_format fmt t args)) as [s Hs]
        by first [ apply format_active_solvent | apply format_active_installments
                 | apply format_moderate | apply format_cash_advance
                 | apply format_low_activity | apply format_unusual ];
      rewrite Hs, bind_Ok
  end.

(** With the six predicate fields present and outside the cash-advance
    branch the rule returns, the seventh field present or not. *)
Lemma rule_outside_cash_branch fmt cluster_id (means : gmap string float)
    b p f ca cl prc :
  means !! "BALANCE" = Some b →
  means !! "PURCHASES" = Some p →
  means !! "PURCHASES_FREQUENCY" = Some f →
  means !! "CASH_ADVANCE" = Some ca →
  means !! "CREDIT_LIMIT" = Some cl →
  means !! "PRC_FULL_PAYMENT" = Some prc →
  branch_of cluster_id (1000 <? p)%float (0.5 <? f)%float
    (0.3 <? prc)%float (500 <? ca)%float ≠ CashAdvanceUsers →
  ∃ d, create_cluster_description fmt cluster_id means = Ok d
       ∧ is_profile
           (branch_of cluster_id (1000 <? p)%float (0.5 <? f)%float
              (0.3 <? prc)%float (500 <? ca)%float) d.
Proof.
  intros Hb Hp Hf Hca Hcl Hprc Hbranch.
  unfold_rule Hb Hp Hf Hca Hcl Hprc.
  destruct (bool_decide (cluster_id = 0));
    destruct (1000 <? p)%float, (0.5 <? f)%float, (0.3 <? prc)%float,
      (500 <? ca)%float; cbn [andb negb] in *;
    try congruence;
    format_step fmt;
    (eexists; split; [reflexivity | split; reflexivity]).
Qed.

(** In the cash-advance branch the seventh field is read. *)
Lemma rule_cash_branch_needs_frequency fmt cluster_id (means : gmap string float)
    b p f ca cl prc :
  means !! "BALANCE" = Some b →
  means !! "PURCHASES" = Some p →
  means !! "PURCHASES_FREQUENCY" = Some f →
  means !! "CASH_ADVANCE" = Some ca →
  means !! "CREDIT_LIMIT" = Some cl →
  means !! "PRC_FULL_PAYMENT" = Some prc →
  branch_of cluster_id (1000 <? p)%float (0.5 <? f)%float
    (0.3 <? prc)%float (500 <? ca)%float = CashAdvanceUsers →
  means !! "CASH_ADVANCE_FREQUENCY" = None →
  create_cluster_description fmt cluster_id means
  = Raise (KeyError (KStr "CASH_ADVANCE_FREQUENCY")).
Proof.
  intros Hb Hp Hf Hca Hcl Hprc Hbranch Hcaf.
  unfold_rule Hb Hp Hf Hca Hcl Hprc.
  rewrite ?(getitem_None _ _ Hcaf).
  destruct (bool_decide (cluster_id = 0));
    destruct (1000 <? p)%float, (0.5 <? f)%float, (0.3 <? prc)%float,
      (500 <? ca)%float; cbn [andb negb] in *;
    first [ discriminate Hbranch | reflexivity ].
Qed.

(** What a returned profile tells: the six predicate fields were there and
    the profile is the branch's. *)
Lemma rule_Ok_inv fmt cluster_id (means : gmap string float) d :
  create_cluster_description fmt cluster_id means = Ok d →
  ∃ b p f ca cl prc,
    means !! "BALANCE" = Some b ∧ means !! "PURCHASES" = Some p ∧
    means !! "PURCHASES_FREQUENCY" = Some f ∧ means !! "CASH_ADVANCE" = Some ca ∧
    means !! "CREDIT_LIMIT" = Some cl ∧ means !! "PRC_FULL_PAYMENT" = Some prc ∧
    is_profile
      (branch_of cluster_id (1000 <? p)%float (0.5 <? f)%float
         (0.3 <? prc)%float (500 <? ca)%float) d ∧
    (branch_of cluster_id (1000 <? p)%float (0.5 <? f)%float
       (0.3 <? prc)%float (500 <? ca)%float = CashAdvanceUsers →
     is_Some (means !! "CASH_ADVANCE_FREQUENCY")).
Proof.
  intros Hd.
  destruct (first_missing predicate_fields means) as [k|] eqn:Hmiss.
  { rewrite (rule_missing_field fmt cluster_id means k Hmiss) in Hd. discriminate. }
  apply first_missing_None, predicate_fields_lookup in Hmiss
    as (b & p & f & ca & cl & prc & Hb & Hp & Hf & Hca & Hcl & Hprc).
  exists b, p, f, ca, cl, prc. repeat (split; [assumption |]).
  destruct (means !! "CASH_ADVANCE_FREQUENCY") as [caf|] eqn:Hcaf.
  - destruct (rule_branch fmt cluster_id means _ _ _ _ _ _ _
                Hb Hp Hf Hca Hcl Hprc Hcaf) as (d' & Hd' & Hprof).
    rewrite Hd in Hd'. injection Hd' as <-. eauto.
  - split.
    + destruct (branch_of cluster_id (1000 <? p)%float (0.5 <? f)%float
                  (0.3 <? prc)%float (500 <? ca)%float) eqn:Hbranch;
        try (destruct (rule_outside_cash_branch fmt cluster_id means _ _ _ _ _ _
                         Hb Hp Hf Hca Hcl Hprc) as (d' & Hd' & Hprof);
             [ rewrite Hbranch; discriminate
             | rewrite Hd in Hd'; injection Hd' as <-; by rewrite <- Hbranch ]).
      rewrite (rule_cash_branch_needs_frequency fmt cluster_id means _ _ _ _ _ _
                 Hb Hp Hf Hca Hcl Hprc Hbranch Hcaf) in Hd.
      discriminate.
    + intros Hbranch.
      rewrite (rule_cash_branch_needs_frequency fmt cluster_id means _ _ _ _ _ _
                 Hb Hp Hf Hca Hcl Hprc Hbranch Hcaf) in Hd.
      discriminate.
Qed.

Lemma branch_of_cash cluster_id hp hf pf uca :
  branch_of cluster_id hp hf pf uca = CashAdvanceUsers
  ↔ cluster_id ≠ 0 ∧ uca = true ∧ hp = false.
Proof.
  unfold branch_of. case_bool_decide as Hid;
    destruct hp, hf, pf, uca; cbn; split;
    first [ discriminate | intros (? & ? & ?); congruence | done ].
Qed.

(** X1: the rule returns a profile exactly when the means hold the six fields of
    the predicates and, where the cash-advance branch is the one taken (a
    cluster id other than 0, cash advances above 500, purchases not above
    1000), CASH_ADVANCE_FREQUENCY as well. *)
Theorem rule_returns_exactly_when fmt cluster_id (means : gmap string float) :
  is_Ok (create_cluster_description fmt cluster_id means)
  ↔ has_fields predicate_fields means
    ∧ (cluster_id ≠ 0 →
       uses_cash_advance means = Ok true →
       high_purchases means = Ok false →
       is_Some (means !! "CASH_ADVANCE_FREQUENCY")).
Proof.
  split.
  - intros [d Hd].
    apply rule_Ok_inv in Hd
      as (b & p & f & ca & cl & prc & Hb & Hp & Hf & Hca & Hcl & Hprc & _ & Hcash).
    split.
    + unfold has_fields, predicate_fields. rewrite !Forall_cons.
      repeat (split; [eauto |]). apply Forall_nil_2.
    + unfold uses_cash_advance, high_purchases.
      rewrite (getitem_Some _ _ _ Hca), (getitem_Some _ _ _ Hp), !bind_Ok.
      intros Hid [= Huca] [= Hhp]. apply Hcash, branch_of_cash. auto.
  - intros [Hfields Hcaf].
    apply predicate_fields_lookup in Hfields
      as (b & p & f & ca & cl & prc & Hb & Hp & Hf & Hca & Hcl & Hprc).
    destruct (means !! "CASH_ADVANCE_FREQUENCY") as [caf|] eqn:Hlook.
    + destruct (rule_branch fmt cluster_id means _ _ _ _ _ _ _
                  Hb Hp Hf Hca Hcl Hprc Hlook) as (d & Hd & _).
      by exists d.
    + destruct (rule_outside_cash_branch fmt cluster_id means _ _ _ _ _ _
                  Hb Hp Hf Hca Hcl Hprc) as (d & Hd & _); [| by exists d].
      intros (Hid & Huca & Hhp)%branch_of_cash.
      unfold uses_cash_advance, high_purchases in Hcaf.
      rewrite (getitem_Some _ _ _ Hca), (getitem_Some _ _ _ Hp), !bind_Ok,
        Huca, Hhp in Hcaf.
      destruct (Hcaf Hid eq_refl eq_refl) as [? ?]. discriminate.
Qed.

(** X2: when a field of the predicates is missing the rule raises [KeyError]
    with the name of the first one missing, in the order BALANCE, PURCHASES,
    PURCHASES_FREQUENCY, CASH_ADVANCE, CREDIT_LIMIT, PRC_FULL_PAYMENT, for
    every cluster id: also for CREDIT_LIMIT, whose predicate no branch
    reads. *)
Theorem rule_reports_first_missing_field fmt cluster_id
    (means : gmap string float) k :
  first_missing predicate_fields means = Some k →
  k ∈ predicate_fields
  ∧ means !! k = None
  ∧ create_cluster_description fmt cluster_id means = Raise (KeyError (KStr k)).
Proof.
  intros Hmiss. destruct (first_missing_Some _ _ _ Hmiss) as [Hin Hnone].
  split; [exact Hin |]. split; [exact Hnone |].
  by apply rule_missing_field.
Qed.

(** X3: means that are nan in PURCHASES, PURCHASES_FREQUENCY and CASH_ADVANCE,
    as the means of a group without rows are, compare false with every
    threshold: cluster id 0 gets the moderate profile and every other id the
    low-activity one. *)
Theorem rule_on_nan_means fmt cluster_id (means : gmap string float) :
  has_fields rule_fields means →
  means !! "PURCHASES" = Some nan →
  means !! "PURCHASES_FREQUENCY" = Some nan →
  means !! "CASH_ADVANCE" = Some nan →
  ∃ d, create_cluster_description fmt cluster_id means = Ok d
       ∧ is_profile (if bool_decide (cluster_id = 0) then ModerateUsers
                     else LowActivity) d.
Proof.
  intros Hfields Hp Hf Hca.
  apply rule_fields_lookup in Hfields
    as (b & p & f & ca & cl & prc & caf & Hb & Hp' & Hf' & Hca' & Hcl & Hprc & Hcaf).
  destruct (rule_branch fmt cluster_id means _ _ _ _ _ _ _
              Hb Hp Hf Hca Hcl Hprc Hcaf) as (d & Hd & Hprof).
  exists d. split; [exact Hd |].
  unfold branch_of in Hprof. by destruct (bool_decide (cluster_id = 0)).
Qed.

(** X4: the name and the tags depend on the means only through the predicates
    the ladder tests: high_purchases and high_frequency, with pays_full for
    cluster id 0 and uses_cash_advance for the others.  BALANCE,
    CREDIT_LIMIT and CASH_ADVANCE_FREQUENCY never select a profile, nor does
    any value on the same side of its threshold. *)
Theorem profile_depends_on_tested_predicates_only fmt cluster_id
    (means1 means2 : gmap string float) :
  has_fields rule_fields means1 →
  has_fields rule_fields means2 →
  high_purchases means1 = high_purchases means2 →
  high_frequency means1 = high_frequency means2 →
  (cluster_id = 0 → pays_full means1 = pays_full means2) →
  (cluster_id ≠ 0 → uses_cash_advance means1 = uses_cash_advance means2) →
  name <$> create_cluster_description fmt cluster_id means1
  = name <$> create_cluster_description fmt cluster_id means2
  ∧ key_features <$> create_cluster_description fmt cluster_id means1
    = key_features <$> create_cluster_description fmt cluster_id means2.
Proof.
  intros Hfields1 Hfields2.
  apply rule_fields_lookup in Hfields1
    as (b1 & p1 & f1 & ca1 & cl1 & prc1 & caf1
        & Hb1 & Hp1 & Hf1 & Hca1 & Hcl1 & Hprc1 & Hcaf1).
  apply rule_fields_lookup in Hfields2
    as (b2 & p2 & f2 & ca2 & cl2 & prc2 & caf2
        & Hb2 & Hp2 & Hf2 & Hca2 & Hcl2 & Hprc2 & Hcaf2).
  unfold high_purchases, high_frequency, pays_full, uses_cash_advance.
  rewrite (getitem_Some _ _ _ Hp1), (getitem_Some _ _ _ Hp2),
    (getitem_Some _ _ _ Hf1), (getitem_Some _ _ _ Hf2),
    (getitem_Some _ _ _ Hprc1), (getitem_Some _ _ _ Hprc2),
    (getitem_Some _ _ _ Hca1), (getitem_Some _ _ _ Hca2), !bind_Ok.
  intros [= Hhp] [= Hhf] Hpf Huca.
  destruct (rule_branch fmt cluster_id means1 _ _ _ _ _ _ _
              Hb1 Hp1 Hf1 Hca1 Hcl1 Hprc1 Hcaf1) as (d1 & -> & [Hn1 Ht1]).
  destruct (rule_branch fmt cluster_id means2 _ _ _ _ _ _ _
              Hb2 Hp2 Hf2 Hca2 Hcl2 Hprc2 Hcaf2) as (d2 & -> & [Hn2 Ht2]).
  assert (branch_of cluster_id (1000 <? p1)%float (0.5 <? f1)%float
            (0.3 <? prc1)%float (500 <? ca1)%float
          = branch_of cluster_id (1000 <? p2)%float (0.5 <? f2)%float
              (0.3 <? prc2)%float (500 <? ca2)%float) as Hbranch.
  { unfold branch_of. rewrite Hhp, Hhf. case_bool_decide as Hid.
    - specialize (Hpf Hid). injection Hpf as ->. reflexivity.
    - specialize (Huca Hid). injection Huca as ->. reflexivity. }
  cbn. rewrite Hn1, Hn2, Ht1, Ht2, Hbranch. done.
Qed.

(** X5: the profiles are split by cluster id: id 0 only ever gets one of the
    active-solvent, installments and moderate profiles, every other id one
    of the cash-advance, low-activity and generic ones. *)
Theorem profiles_are_split_by_cluster_id fmt cluster_id
    (means : gmap string float) d :
  create_cluster_description fmt cluster_id means = Ok d →
  (cluster_id = 0 →
   is_profile ActiveSolvent d ∨ is_profile ActiveInstallments d
   ∨ is_profile ModerateUsers d)
  ∧ (cluster_id ≠ 0 →
     is_profile CashAdvanceUsers d ∨ is_profile LowActivity d
     ∨ is_profile UnusualBehavior d).
Proof.
  intros Hd.
  apply rule_Ok_inv in Hd
    as (b & p & f & ca & cl & prc & _ & _ & _ & _ & _ & _ & Hprof & _).
  unfold branch_of in Hprof.
  split; intros Hid.
  - rewrite bool_decide_eq_true_2 in Hprof by done.
    destruct (1000 <? p)%float, (0.5 <? f)%float, (0.3 <? prc)%float;
      cbn [andb] in Hprof; auto.
  - rewrite bool_decide_eq_false_2 in Hprof by done.
    destruct (500 <? ca)%float, (1000 <? p)%float, (0.5 <? f)%float;
      cbn [andb negb] in Hprof; auto.
Qed.

(** ** The log step: failure, order, shape *)

Section LogStepMore.
Variable np_log : float → float.

Lemma log_columns_missing cols : ∀ (df : DataFrame) c,
  first_missing cols (columns df) = Some c →
  log_columns np_log cols df = Raise (KeyError (KStr c)).
Proof.
  induction cols as [|k ks IH]; intros df c; cbn [first_missing]; [discriminate |].
  destruct (columns df !! k) as [s|] eqn:Hk.
  - intros Hmiss. cbn. rewrite (log_column_ok np_log df k s Hk), bind_Ok.
    apply IH. cbn. rewrite first_missing_insert by eauto. exact Hmiss.
  - intros [= <-]. cbn. unfold log_column, df_getitem.
    by rewrite (getitem_None _ _ Hk).
Qed.

Lemma log_columns_present cols : ∀ df : DataFrame,
  first_missing cols (columns df) = None →
  is_Ok (log_columns np_log cols df).
Proof.
  induction cols as [|k ks IH]; intros df; cbn [first_missing].
  - intros _. by exists df.
  - destruct (columns df !! k) as [s|] eqn:Hk; [| discriminate].
    intros Hmiss. cbn. rewrite (log_column_ok np_log df k s Hk), bind_Ok.
    apply IH. cbn. rewrite first_missing_insert by eauto. exact Hmiss.
Qed.

Lemma np_log1p_len s : series_len (np_log1p np_log s) = series_len s.
Proof. destruct s; cbn; apply length_fmap. Qed.

(** Each column of the result comes from the column of that name, has its
    length, and is a float column if it was listed. *)
Lemma log_columns_shape cols : ∀ (df df' : DataFrame) k s',
  log_columns np_log cols df = Ok df' →
  columns df' !! k = Some s' →
  ∃ s, columns df !! k = Some s
       ∧ series_len s' = series_len s
       ∧ (k ∈ cols → ∃ xs, s' = FloatSeries xs).
Proof.
  induction cols as [|c cs IH]; intros df df' k s' Hrun Hk.
  - injection Hrun as <-. exists s'. split; [done |]. split; [done |].
    intros Hin. by apply elem_of_nil in Hin.
  - cbn in Hrun. apply bind_is_Ok in Hrun as (df1 & Hc & Hrest).
    apply log_column_inv in Hc as (s0 & Hs0 & ->).
    destruct (IH _ _ k s' Hrest Hk) as (s1 & Hs1 & Hlen & Hfloat).
    cbn in Hs1. destruct (decide (c = k)) as [<- | Hne].
    + rewrite lookup_insert_eq in Hs1. injection Hs1 as <-.
      exists s0. split; [done |]. split; [by rewrite Hlen, np_log1p_len |].
      intros _. destruct (decide (c ∈ cs)) as [Hin | Hnotin]; [auto |].
      destruct (log_columns_frame np_log _ _ _ Hrest) as [_ Hkeep].
      rewrite (Hkeep c Hnotin) in Hk. cbn in Hk.
      rewrite lookup_insert_eq in Hk. injection Hk as <-.
      destruct s0; cbn; eauto.
    + rewrite lookup_insert_ne in Hs1 by done.
      exists s1. split; [done |]. split; [done |].
      intros [-> | Hin]%elem_of_cons; [done | auto].
Qed.
(** The step adds no column and removes none. *)
Lemma log_columns_dom cols : ∀ df df' : DataFrame,
  log_columns np_log cols df = Ok df' →
  dom (columns df') = dom (columns df).
Proof.
  induction cols as [|c cs IH]; intros df df' Hrun.
  - by injection Hrun as <-.
  - cbn in Hrun. apply bind_is_Ok in Hrun as (df1 & Hc & Hrest).
    apply log_column_inv in Hc as (s0 & Hs0 & ->).
    rewrite (IH _ _ Hrest). cbn. rewrite dom_insert_L.
    apply subseteq_union_1_L, singleton_subseteq_l. by apply elem_of_dom_2 in Hs0.
Qed.
End LogStepMore.

(** X6: the log step raises exactly when a listed column is missing, and then
    [KeyError] with the first missing name in list order; otherwise it
    returns a frame, whatever the values. *)
Theorem log_step_fails_exactly_on_missing_column np_log cols (df : DataFrame) :
  match first_missing cols (columns df) with
  | Some c => c ∈ cols ∧ columns df !! c = None
              ∧ log_columns np_log cols df = Raise (KeyError (KStr c))
  | None => is_Ok (log_columns np_log cols df)
  end.
Proof.
  destruct (first_missing cols (columns df)) as [c|] eqn:Hmiss.
  - destruct (first_missing_Some _ _ _ Hmiss) as [Hin Hnone].
    split; [exact Hin |]. split; [exact Hnone |].
    by apply log_columns_missing.
  - by apply log_columns_present.
Qed.

(** X7: a dataset without one of the twelve log columns stops the analysis with
    that column's [KeyError] before the model stages are called: whatever
    they would do, the outcome is the same. *)
Theorem analysis_stops_at_missing_log_column np_log series_mean fmt
    (df : DataFrame) c :
  first_missing Analyze.cols_log (columns df) = Some c →
  ∀ predict,
    load_data_and_analyze_clusters np_log series_mean fmt predict df
    = Raise (KeyError (KStr c)).
Proof.
  intros Hmiss predict. unfold load_data_and_analyze_clusters.
  by rewrite (log_columns_missing np_log _ _ _ Hmiss).
Qed.

(** X8: the order in which the columns are listed does not matter: two lists of
    the same distinct, present columns give the same frame. *)
Theorem log_step_ignores_column_order np_log cols1 cols2 (df : DataFrame) :
  cols1 ≡ₚ cols2 →
  NoDup cols1 →
  has_fields cols1 (columns df) →
  log_columns np_log cols1 df = log_columns np_log cols2 df
  ∧ is_Ok (log_columns np_log cols1 df).
Proof.
  intros Hperm Hnd Hhas.
  assert (NoDup cols2) as Hnd2 by (by rewrite <- Hperm).
  assert (has_fields cols2 (columns df)) as Hhas2.
  { unfold has_fields in *. by rewrite <- Hperm. }
  destruct (log_columns_ok np_log cols1 df Hnd Hhas) as (df1 & Hrun1 & Hlog1).
  destruct (log_columns_ok np_log cols2 df Hnd2 Hhas2) as (df2 & Hrun2 & Hlog2).
  destruct (log_columns_frame np_log _ _ _ Hrun1) as [Hidx1 Hkeep1].
  destruct (log_columns_frame np_log _ _ _ Hrun2) as [Hidx2 Hkeep2].
  rewrite Hrun1, Hrun2. split; [| by exists df1]. f_equal.
  destruct df1 as [idx1 cols1'], df2 as [idx2 cols2']. cbn in *. f_equal.
  - congruence.
  - apply map_eq. intros k. destruct (decide (k ∈ cols1)) as [Hin | Hnotin].
    + rewrite (Hlog1 k Hin). symmetry. apply Hlog2. by rewrite <- Hperm.
    + rewrite (Hkeep1 k Hnotin). symmetry. apply Hkeep2. by rewrite <- Hperm.
Qed.

(** X9: the log step keeps the shape of a frame: the rows and every column's
    length stay as they were, and every listed column, the integer counts
    included, comes out as a float column. *)
Theorem log_step_keeps_shape np_log cols (df df' : DataFrame) :
  well_formed df →
  log_columns np_log cols df = Ok df' →
  well_formed df'
  ∧ df_len df' = df_len df
  ∧ dom (columns df') = dom (columns df)
  ∧ ∀ c, c ∈ cols → ∃ xs, columns df' !! c = Some (FloatSeries xs)
                          ∧ length xs = df_len df.
Proof.
  intros Hwf Hrun.
  destruct (log_columns_frame np_log _ _ _ Hrun) as [Hidx _].
  assert (df_len df' = df_len df) as Hlen by (unfold df_len; by rewrite Hidx).
  pose proof (log_columns_dom np_log _ _ _ Hrun) as Hdom.
  split; [| split; [exact Hlen | split; [exact Hdom |]]].
  - intros k s' Hk.
    destruct (log_columns_shape np_log _ _ _ _ _ Hrun Hk) as (s & Hs & Hl & _).
    rewrite Hl, Hlen. by apply (Hwf k).
  - intros c Hin.
    assert (is_Some (columns df' !! c)) as [s' Hk].
    { apply elem_of_dom. rewrite Hdom. apply elem_of_dom.
      destruct (first_missing cols (columns df)) as [c'|] eqn:Hmiss.
      - rewrite (log_columns_missing np_log _ _ _ Hmiss) in Hrun. discriminate.
      - apply first_missing_None in Hmiss. unfold has_fields in Hmiss.
        rewrite Forall_forall in Hmiss. by apply Hmiss. }
    destruct (log_columns_shape np_log _ _ _ _ _ Hrun Hk) as (s & Hs & Hl & Hfloat).
    destruct (Hfloat Hin) as [xs ->]. exists xs. split; [done |].
    cbn in Hl. rewrite Hl. by apply (Hwf c).
Qed.

(** ** The cluster analysis, read backwards *)

Lemma rows_of_bound (clusters : list Z) :
  (rows_of 0 clusters + rows_of 1 clusters ≤ length clusters)%nat
  ∧ ((rows_of 0 clusters + rows_of 1 clusters = length clusters)%nat
     ↔ Forall (λ c, c = 0 ∨ c = 1) clusters).
Proof.
  unfold rows_of. induction clusters as [|c cs [IHle IHeq]].
  - split; [done |]. split; [intros _; apply Forall_nil_2 | done].
  - rewrite !filter_cons, Forall_cons.
    destruct (decide (c = 0)) as [-> | H0].
    + rewrite decide_False by done. cbn. split; [lia |].
      rewrite <- IHeq. split; [intros ?; split; [auto | lia] | intros [_ ?]; lia].
    + destruct (decide (c = 1)) as [-> | H1].
      * cbn. split; [lia |].
        rewrite <- IHeq. split; [intros ?; split; [auto | lia] | intros [_ ?]; lia].
      * cbn. split; [lia |]. split; [lia | intros [[? | ?] _]; done].
Qed.

Lemma cluster_rows_len (df : DataFrame) clusters cluster_id :
  length clusters = df_len df →
  df_len (cluster_rows df clusters cluster_id) = rows_of cluster_id clusters.
Proof. intros Hlen. unfold df_len, cluster_rows. cbn. by apply filter_mask_rows. Qed.

Section AnalysisMore.
Variable np_log : float → float.
Variable series_mean : Series → float.
Variable fmt : string → float → string.
Variable predict : DataFrame → result (list Z).

(** One turn of the loop that returned: the narrative was built from the
    means of the group, the frame has rows, and the entry is the group's. *)
Lemma analyze_cluster_inv (df : DataFrame) clusters acc acc' cluster_id :
  analyze_cluster series_mean fmt
    (df_assign df "cluster_id" (IntSeries clusters)) acc cluster_id = Ok acc' →
  df_len df ≠ 0%nat
  ∧ ∃ d,
      create_cluster_description fmt cluster_id
        (series_mean <$> columns (cluster_rows df clusters cluster_id)) = Ok d
      ∧ acc' = <[cluster_id := cluster_entry series_mean df clusters cluster_id d]> acc.
Proof.
  unfold analyze_cluster, df_where_eq, df_getitem.
  rewrite (getitem_Some _ _ (IntSeries clusters)) by apply lookup_insert_eq.
  rewrite bind_Ok. cbn [series_eq]. rewrite bind_Ok.
  intros Hrun. apply bind_is_Ok in Hrun as (d & Hd & Hrun).
  unfold truediv in Hrun. case_bool_decide as Hzero; [discriminate |].
  rewrite bind_Ok in Hrun. injection Hrun as <-.
  split; [unfold df_len in *; cbn in *; lia |].
  exists d. split; [exact Hd | reflexivity].
Qed.

(** An analysis that returned. *)
Lemma analysis_inv (df : DataFrame) cluster_analysis :
  load_data_and_analyze_clusters np_log series_mean fmt predict df
  = Ok cluster_analysis →
  ∃ df_log clusters d0 d1,
    log_columns np_log Analyze.cols_log df = Ok df_log
    ∧ predict df_log = Ok clusters
    ∧ length clusters = df_len df
    ∧ df_len df ≠ 0%nat
    ∧ create_cluster_description fmt 0
        (series_mean <$> columns (cluster_rows df clusters 0)) = Ok d0
    ∧ create_cluster_description fmt 1
        (series_mean <$> columns (cluster_rows df clusters 1)) = Ok d1
    ∧ cluster_analysis
      = <[1 := cluster_entry series_mean df clusters 1 d1]>
          (<[0 := cluster_entry series_mean df clusters 0 d0]> ∅).
Proof.
  unfold load_data_and_analyze_clusters. intros Hrun.
  apply bind_is_Ok in Hrun as (df_log & Hlog & Hrun).
  apply bind_is_Ok in Hrun as (clusters & Hpred & Hrun).
  apply bind_is_Ok in Hrun as (labelled & Hset & Hrun).
  unfold df_setitem_array in Hset. case_bool_decide as Hlen; [| discriminate].
  injection Hset as <-.
  change (range 2) with [0; 1] in Hrun. cbn [for_each] in Hrun.
  apply bind_is_Ok in Hrun as (acc0 & Hrun0 & Hrun).
  apply bind_is_Ok in Hrun as (acc1 & Hrun1 & Hrun).
  injection Hrun as <-.
  apply analyze_cluster_inv in Hrun0 as (Hne & d0 & Hd0 & ->).
  apply analyze_cluster_inv in Hrun1 as (_ & d1 & Hd1 & ->).
  by exists df_log, clusters, d0, d1.
Qed.

(** On a frame without rows the first turn of the loop divides by zero. *)
Lemma analyze_cluster_no_rows (df : DataFrame) clusters acc cluster_id :
  df_len df = 0%nat →
  has_fields rule_fields (columns df) →
  analyze_cluster series_mean fmt
    (df_assign df "cluster_id" (IntSeries clusters)) acc cluster_id
  = Raise ZeroDivisionError.
Proof.
  intros Hzero Hhas.
  unfold analyze_cluster, df_where_eq, df_getitem.
  rewrite (getitem_Some _ _ (IntSeries clusters)) by apply lookup_insert_eq.
  rewrite bind_Ok. cbn [series_eq]. rewrite bind_Ok.
  match goal with
  | |- context [create_cluster_description fmt cluster_id ?m] =>
      destruct (rule_returns fmt cluster_id m) as [d Hd]
  end.
  { unfold has_fields in *. eapply Forall_impl; [exact Hhas |].
    intros k [s Hs]. unfold df_mean. cbn.
    rewrite !lookup_fmap. destruct (decide ("cluster_id" = k)) as [<- | Hne].
    - rewrite lookup_insert_eq. cbn. eauto.
    - rewrite lookup_insert_ne, Hs by done. cbn. eauto. }
  rewrite Hd, bind_Ok. unfold truediv, df_len in *. cbn [index df_assign].
  rewrite Hzero. reflexivity.
Qed.
End AnalysisMore.

(** X10: after an analysis that returned, looking a cluster id up succeeds for 0
    and for 1 and raises [KeyError] with the id for every other integer. *)
Theorem lookup_after_analysis np_log series_mean fmt predict (df : DataFrame)
    cluster_analysis cluster :
  load_data_and_analyze_clusters np_log series_mean fmt predict df
  = Ok cluster_analysis →
  dom cluster_analysis = {[0; 1]}
  ∧ (cluster = 0 ∨ cluster = 1 → is_Ok (cluster_info cluster_analysis cluster))
  ∧ (cluster ≠ 0 → cluster ≠ 1 →
     cluster_info cluster_analysis cluster = Raise (KeyError (KInt cluster))).
Proof.
  intros Hrun.
  apply analysis_inv in Hrun as (df_log & clusters & d0 & d1 & _ & _ & _ & _ & _ & _ & ->).
  split; [| split].
  - rewrite !dom_insert_L, dom_empty_L.
    apply set_eq. intros x. rewrite !elem_of_union, !elem_of_singleton, elem_of_empty.
    tauto.
  - unfold cluster_info. intros [-> | ->].
    + rewrite lookup_insert_ne, lookup_insert_eq by done. by eexists.
    + rewrite lookup_insert_eq. by eexists.
  - intros H0 H1. unfold cluster_info.
    by rewrite !lookup_insert_ne, lookup_empty by done.
Qed.

(** X11: the means an entry reports are means of the raw rows of its group: for
    every column of the dataset, the mean of that column's values on the rows
    with the entry's label, with no logarithm applied; the log step and the
    model only decide the labels.  The entry also carries the mean of the
    label column itself. *)
Theorem analysis_means_are_of_raw_rows np_log series_mean fmt predict
    (df : DataFrame) cluster_analysis :
  load_data_and_analyze_clusters np_log series_mean fmt predict df
  = Ok cluster_analysis →
  ∃ df_log clusters,
    log_columns np_log Analyze.cols_log df = Ok df_log
    ∧ predict df_log = Ok clusters
    ∧ ∀ cluster info,
        cluster_info cluster_analysis cluster = Ok info →
        (∀ k s, k ≠ "cluster_id" → columns df !! k = Some s →
           ci_means info !! k
           = Some (series_mean
                     (series_filter ((λ x, bool_decide (x = cluster)) <$> clusters) s)))
        ∧ ci_means info !! "cluster_id"
          = Some (series_mean
                    (IntSeries
                       (filter_mask ((λ x, bool_decide (x = cluster)) <$> clusters)
                          clusters))).
Proof.
  intros Hrun.
  apply analysis_inv in Hrun
    as (df_log & clusters & d0 & d1 & Hlog & Hpred & _ & _ & _ & _ & ->).
  exists df_log, clusters. split; [exact Hlog |]. split; [exact Hpred |].
  intros cluster info. unfold cluster_info.
  assert (∀ c d,
    (∀ k s, k ≠ "cluster_id" → columns df !! k = Some s →
       ci_means (cluster_entry series_mean df clusters c d) !! k
       = Some (series_mean
                 (series_filter ((λ x, bool_decide (x = c)) <$> clusters) s)))
    ∧ ci_means (cluster_entry series_mean df clusters c d) !! "cluster_id"
      = Some (series_mean
                (IntSeries
                   (filter_mask ((λ x, bool_decide (x = c)) <$> clusters) clusters))))
    as Hentry.
  { intros c d. cbn. split.
    - intros k s Hk Hs. by rewrite !lookup_fmap, lookup_insert_ne, Hs.
    - by rewrite !lookup_fmap, lookup_insert_eq. }
  destruct (decide (cluster = 1)) as [-> | H1].
  { rewrite lookup_insert_eq. intros [= <-]. apply Hentry. }
  rewrite lookup_insert_ne by done.
  destruct (decide (cluster = 0)) as [-> | H0].
  { rewrite lookup_insert_eq. intros [= <-]. apply Hentry. }
  rewrite lookup_insert_ne, lookup_empty by done. discriminate.
Qed.

(** X12: only labels 0 and 1 are counted: the two sizes are the numbers of rows
    labelled 0 and 1, their sum never exceeds the row count, and it reaches
    it exactly when the model used no other label; rows with another label
    are in no profile. *)
Theorem analysis_counts_only_labels_0_and_1 np_log series_mean fmt predict
    (df : DataFrame) cluster_analysis :
  load_data_and_analyze_clusters np_log series_mean fmt predict df
  = Ok cluster_analysis →
  ∃ df_log clusters info0 info1,
    log_columns np_log Analyze.cols_log df = Ok df_log
    ∧ predict df_log = Ok clusters
    ∧ cluster_info cluster_analysis 0 = Ok info0
    ∧ cluster_info cluster_analysis 1 = Ok info1
    ∧ ci_size info0 = rows_of 0 clusters
    ∧ ci_size info1 = rows_of 1 clusters
    ∧ (ci_size info0 + ci_size info1 ≤ df_len df)%nat
    ∧ ((ci_size info0 + ci_size info1 = df_len df)%nat
       ↔ Forall (λ c, c = 0 ∨ c = 1) clusters).
Proof.
  intros Hrun.
  apply analysis_inv in Hrun
    as (df_log & clusters & d0 & d1 & Hlog & Hpred & Hlen & _ & _ & _ & ->).
  exists df_log, clusters, (cluster_entry series_mean df clusters 0 d0),
    (cluster_entry series_mean df clusters 1 d1).
  split; [exact Hlog |]. split; [exact Hpred |].
  unfold cluster_info.
  rewrite lookup_insert_ne, !lookup_insert_eq by done.
  split; [done |]. split; [done |]. cbn [ci_size cluster_entry].
  rewrite !cluster_rows_len by done.
  split; [done |]. split; [done |]. rewrite <- Hlen. apply rows_of_bound.
Qed.

(** X13: a dataset without rows never gets an analysis: where the columns are
    there and the model stages return no label for no row, the first turn of
    the loop raises [ZeroDivisionError] on the share. *)
Theorem analysis_of_empty_dataset np_log series_mean fmt predict (df : DataFrame) :
  df_len df = 0%nat →
  (∀ cluster_analysis,
     load_data_and_analyze_clusters np_log series_mean fmt predict df
     ≠ Ok cluster_analysis)
  ∧ (has_fields rule_fields (columns df) →
     ∀ df_log,
       log_columns np_log Analyze.cols_log df = Ok df_log →
       predict df_log = Ok [] →
       load_data_and_analyze_clusters np_log series_mean fmt predict df
       = Raise ZeroDivisionError).
Proof.
  intros Hzero. split.
  - intros cluster_analysis Hrun.
    apply analysis_inv in Hrun as (? & ? & ? & ? & _ & _ & _ & Hne & _). done.
  - intros Hhas df_log Hlog Hpred. unfold load_data_and_analyze_clusters.
    rewrite Hlog, bind_Ok, Hpred, bind_Ok. unfold df_setitem_array.
    rewrite bool_decide_eq_true_2 by (by rewrite Hzero). rewrite bind_Ok.
    change (range 2) with [0; 1]. cbn [for_each].
    by rewrite (analyze_cluster_no_rows series_mean fmt df [] ∅ 0 Hzero Hhas).
Qed.

(** ** The handler and the overview after an analysis *)

Section DisplayMore.
Variable fmt : string → float → string.

(** The format each key metric gets: the name decides. *)
Lemma metric_text_dollars (means_df : gmap string float) metric :
  metric ∈ ["BALANCE"; "PURCHASES"; "PURCHASES_FREQUENCY"; "CREDIT_LIMIT";
            "PAYMENTS"; "CASH_ADVANCE"] →
  metric_text fmt means_df metric
  = (x ← getitem means_df metric; Ok ("$" +:+ fmt ",.2f" x)).
Proof.
  rewrite !elem_of_cons, elem_of_nil.
  intros [-> | [-> | [-> | [-> | [-> | [-> | []]]]]]]; reflexivity.
Qed.

Lemma metric_text_share (means_df : gmap string float) :
  metric_text fmt means_df "PRC_FULL_PAYMENT"
  = (x ← getitem means_df "PRC_FULL_PAYMENT"; Ok (fmt ".2%" x)).
Proof. reflexivity. Qed.

(** The key metrics of an entry whose means hold them and the label. *)
Lemma segment_metrics_ok (cluster_analysis : gmap Z ClusterInfo) cluster info
    b p pf cl pay ca prc :
  cluster_analysis !! cluster = Some info →
  is_Some (ci_means info !! "cluster_id") →
  ci_means info !! "BALANCE" = Some b →
  ci_means info !! "PURCHASES" = Some p →
  ci_means info !! "PURCHASES_FREQUENCY" = Some pf →
  ci_means info !! "CREDIT_LIMIT" = Some cl →
  ci_means info !! "PAYMENTS" = Some pay →
  ci_means info !! "CASH_ADVANCE" = Some ca →
  ci_means info !! "PRC_FULL_PAYMENT" = Some prc →
  segment_metrics fmt cluster_analysis cluster
  = Ok [("BALANCE", "$" +:+ fmt ",.2f" b);
        ("PURCHASES", "$" +:+ fmt ",.2f" p);
        ("PURCHASES_FREQUENCY", "$" +:+ fmt ",.2f" pf);
        ("CREDIT_LIMIT", "$" +:+ fmt ",.2f" cl);
        ("PAYMENTS", "$" +:+ fmt ",.2f" pay);
        ("CASH_ADVANCE", "$" +:+ fmt ",.2f" ca);
        ("PRC_FULL_PAYMENT", fmt ".2%" prc)].
Proof.
  intros Hinfo [lab Hlab] Hb Hp Hpf Hcl Hpay Hca Hprc.
  unfold segment_metrics, cluster_info, series_drop.
  rewrite Hinfo, bind_Ok, Hlab, bind_Ok.
  unfold key_metrics. cbn [mapM].
  rewrite (metric_text_dollars _ "BALANCE"), (metric_text_dollars _ "PURCHASES"),
    (metric_text_dollars _ "PURCHASES_FREQUENCY"),
    (metric_text_dollars _ "CREDIT_LIMIT"), (metric_text_dollars _ "PAYMENTS"),
    (metric_text_dollars _ "CASH_ADVANCE"), metric_text_share
    by (rewrite !elem_of_cons; auto 10).
  rewrite !(getitem_Some (delete "cluster_id" (ci_means info)) _ _)
    by (rewrite lookup_delete_ne by done; eassumption).
  reflexivity.
Qed.
End DisplayMore.

(** X14: a request whose label is neither 0 nor 1 cannot be served from an
    analysis that returned: the handler raises [KeyError] with the label. *)
Theorem request_with_unseen_label_fails np_log series_mean fmt predict
    (df df_input : DataFrame) cluster_analysis cluster :
  load_data_and_analyze_clusters np_log series_mean fmt predict df
  = Ok cluster_analysis →
  predict_cluster np_log predict df_input = Ok cluster →
  cluster ≠ 0 → cluster ≠ 1 →
  handle_request np_log fmt predict cluster_analysis df_input
  = Raise (KeyError (KInt cluster)).
Proof.
  intros Hrun Hcluster H0 H1.
  apply analysis_inv in Hrun as (? & ? & ? & ? & _ & _ & _ & _ & _ & _ & ->).
  unfold handle_request, segment_metrics, cluster_info.
  rewrite Hcluster, bind_Ok.
  by rewrite !lookup_insert_ne, lookup_empty by done.
Qed.

(** X15: for a label 0 or 1 the key metrics of the segment are always available
    after an analysis of a dataset that has their columns: the label's mean
    is there to drop, and the seven texts come out in the order of
    [key_metrics], six of them as dollar amounts, the share
    PURCHASES_FREQUENCY among these, and PRC_FULL_PAYMENT as a
    percentage. *)
Theorem key_metrics_of_analysed_segment np_log series_mean fmt predict
    (df : DataFrame) cluster_analysis cluster :
  load_data_and_analyze_clusters np_log series_mean fmt predict df
  = Ok cluster_analysis →
  has_fields key_metrics (columns df) →
  cluster = 0 ∨ cluster = 1 →
  ∃ info b p pf cl pay ca prc,
    cluster_info cluster_analysis cluster = Ok info
    ∧ ci_means info !! "BALANCE" = Some b
    ∧ ci_means info !! "PURCHASES" = Some p
    ∧ ci_means info !! "PURCHASES_FREQUENCY" = Some pf
    ∧ ci_means info !! "CREDIT_LIMIT" = Some cl
    ∧ ci_means info !! "PAYMENTS" = Some pay
    ∧ ci_means info !! "CASH_ADVANCE" = Some ca
    ∧ ci_means info !! "PRC_FULL_PAYMENT" = Some prc
    ∧ segment_metrics fmt cluster_analysis cluster
      = Ok [("BALANCE", "$" +:+ fmt ",.2f" b);
            ("PURCHASES", "$" +:+ fmt ",.2f" p);
            ("PURCHASES_FREQUENCY", "$" +:+ fmt ",.2f" pf);
            ("CREDIT_LIMIT", "$" +:+ fmt ",.2f" cl);
            ("PAYMENTS", "$" +:+ fmt ",.2f" pay);
            ("CASH_ADVANCE", "$" +:+ fmt ",.2f" ca);
            ("PRC_FULL_PAYMENT", fmt ".2%" prc)].
Proof.
  intros Hrun Hhas Hcluster.
  apply analysis_inv in Hrun
    as (df_log & clusters & d0 & d1 & _ & _ & _ & _ & _ & _ & ->).
  assert (∃ d, (<[1 := cluster_entry series_mean df clusters 1 d1]>
                  (<[0 := cluster_entry series_mean df clusters 0 d0]> ∅)
                : gmap Z ClusterInfo) !! cluster
               = Some (cluster_entry series_mean df clusters cluster d))
    as [d Hinfo].
  { destruct Hcluster as [-> | ->].
    - exists d0. by rewrite lookup_insert_ne, lookup_insert_eq.
    - exists d1. by rewrite lookup_insert_eq. }
  assert (∀ k, k ≠ "cluster_id" → is_Some (columns df !! k) →
            is_Some (ci_means (cluster_entry series_mean df clusters cluster d) !! k))
    as Hmean.
  { intros k Hk [s Hs]. cbn. rewrite !lookup_fmap, lookup_insert_ne, Hs by done.
    cbn. eauto. }
  unfold has_fields, key_metrics in Hhas. rewrite !Forall_cons in Hhas.
  destruct Hhas as (Hb & Hp & Hpf & Hcl & Hpay & Hca & Hprc & _).
  apply Hmean in Hb as [b Hb]; [| done]. apply Hmean in Hp as [p Hp]; [| done].
  apply Hmean in Hpf as [pf Hpf]; [| done]. apply Hmean in Hcl as [cl Hcl]; [| done].
  apply Hmean in Hpay as [pay Hpay]; [| done]. apply Hmean in Hca as [ca Hca]; [| done].
  apply Hmean in Hprc as [prc Hprc]; [| done].
  exists (cluster_entry series_mean df clusters cluster d), b, p, pf, cl, pay, ca, prc.
  split; [unfold cluster_info; by rewrite Hinfo |].
  repeat (split; [assumption |]).
  apply (segment_metrics_ok fmt _ _ _ b p pf cl pay ca prc Hinfo); try assumption.
  cbn. rewrite !lookup_fmap, lookup_insert_eq. cbn. eauto.
Qed.

(** X16: after an analysis that returned the overview never fails: it shows two
    segments, id 0 and then id 1, each with the name, narrative, size and
    share of its entry. *)
Theorem overview_after_analysis np_log series_mean fmt predict (df : DataFrame)
    cluster_analysis :
  load_data_and_analyze_clusters np_log series_mean fmt predict df
  = Ok cluster_analysis →
  ∃ info0 info1,
    cluster_info cluster_analysis 0 = Ok info0
    ∧ cluster_info cluster_analysis 1 = Ok info1
    ∧ overview cluster_analysis
      = Ok [(name (ci_description info0), description (ci_description info0),
             ci_size info0, ci_percentage info0);
            (name (ci_description info1), description (ci_description info1),
             ci_size info1, ci_percentage info1)].
Proof.
  intros Hrun.
  apply analysis_inv in Hrun
    as (df_log & clusters & d0 & d1 & _ & _ & _ & _ & _ & _ & ->).
  exists (cluster_entry series_mean df clusters 0 d0),
    (cluster_entry series_mean df clusters 1 d1).
  unfold overview, cluster_info. change (range 2) with [0; 1]. cbn [mapM].
  rewrite lookup_insert_ne, !lookup_insert_eq by done. done.
Qed.

(** ** Cleaning *)

Lemma filter_mask_length_eq {A B} (mask : list bool) : ∀ (xs : list A) (ys : list B),
  length xs = length ys →
  length (filter_mask mask xs) = length (filter_mask mask ys).
Proof.
  induction mask as [|b mask IH]; intros [|x xs] [|y ys] Hlen;
    try discriminate Hlen; try reflexivity.
  injection Hlen as Hlen. cbn. destruct b; cbn; by rewrite (IH xs ys).
Qed.

Lemma filter_mask_length_le {A} (mask : list bool) : ∀ xs : list A,
  (length (filter_mask mask xs) ≤ length xs)%nat.
Proof.
  induction mask as [|b mask IH]; intros [|x xs]; cbn; try lia.
  specialize (IH xs). destruct b; cbn; lia.
Qed.

Lemma filter_mask_all (xs : list float) :
  Forall (λ x, is_nan x = false) xs →
  ∀ {A} (ys : list A), length ys = length xs →
    filter_mask ((λ x, negb (is_nan x)) <$> xs) ys = ys.
Proof.
  induction 1 as [|x xs Hx _ IH]; intros A [|y ys] Hlen;
    try discriminate Hlen; [reflexivity |].
  injection Hlen as Hlen. cbn. rewrite Hx. cbn. by rewrite IH.
Qed.

Lemma filter_mask_true {A B} (xs : list B) : ∀ ys : list A,
  length ys = length xs →
  filter_mask ((λ _, true) <$> xs) ys = ys.
Proof.
  induction xs as [|x xs IH]; intros [|y ys] Hlen;
    try discriminate Hlen; [reflexivity |].
  injection Hlen as Hlen. cbn. by rewrite IH.
Qed.

Lemma filter_mask_notna (xs : list float) :
  Forall (λ x, is_nan x = false)
    (filter_mask ((λ x, negb (is_nan x)) <$> xs) xs).
Proof.
  induction xs as [|x xs IH]; cbn; [apply Forall_nil_2 |].
  destruct (is_nan x) eqn:Hx; cbn; [exact IH |].
  apply Forall_cons. by split.
Qed.

Lemma series_len_filter (mask : list bool) s (idx : list nat) :
  series_len s = length idx →
  series_len (series_filter mask s) = length (filter_mask mask idx).
Proof. destruct s; cbn; apply filter_mask_length_eq. Qed.

Lemma series_fillna_len s v : series_len (series_fillna s v) = series_len s.
Proof. destruct s; cbn; [apply length_fmap | done]. Qed.

Lemma series_fillna_no_nan s v : is_nan v = false → no_nan (series_fillna s v).
Proof.
  intros Hv. destruct s as [xs | zs]; cbn; [| done].
  apply Forall_fmap, Forall_forall. intros x _. cbn.
  by destruct (is_nan x) eqn:Hx.
Qed.

Lemma series_fillna_id s v : no_nan s → series_fillna s v = s.
Proof.
  destruct s as [xs | zs]; cbn; [| done]. intros Hxs. f_equal.
  induction Hxs as [|x xs Hx _ IH]; cbn; [done |]. by rewrite Hx, IH.
Qed.

Lemma series_filter_notna_id cl s :
  no_nan cl → series_len s = series_len cl →
  series_filter (series_notna cl) s = s.
Proof.
  intros Hcl Hlen. destruct cl as [xs | zs], s as [ys | ys]; cbn in *; f_equal;
    first [ by apply filter_mask_all | by apply filter_mask_true ].
Qed.

Section CleaningMore.
Variable series_median : Series → float.

(** What cleaning returns, when both columns are there. *)
Lemma clean_data_ok (df : DataFrame) cl payments :
  columns df !! "CREDIT_LIMIT" = Some cl →
  columns df !! "MINIMUM_PAYMENTS" = Some payments →
  clean_data series_median df
  = Ok {| index := filter_mask (series_notna cl) (index df);
          columns :=
            <["MINIMUM_PAYMENTS" :=
                series_fillna (series_filter (series_notna cl) payments)
                  (series_median (series_filter (series_notna cl) payments))]>
              (series_filter (series_notna cl) <$> columns df) |}.
Proof.
  intros Hcl Hpay. unfold clean_data, df_dropna, df_getitem.
  rewrite (getitem_Some _ _ _ Hcl), bind_Ok. cbn.
  rewrite (getitem_Some _ _ (series_filter (series_notna cl) payments))
    by (by rewrite lookup_fmap, Hpay).
  reflexivity.
Qed.
(** Cleaning that returned had both columns to work on. *)
Lemma clean_data_inv (df df' : DataFrame) :
  clean_data series_median df = Ok df' →
  ∃ cl payments,
    columns df !! "CREDIT_LIMIT" = Some cl
    ∧ columns df !! "MINIMUM_PAYMENTS" = Some payments
    ∧ df' = {| index := filter_mask (series_notna cl) (index df);
               columns :=
                 <["MINIMUM_PAYMENTS" :=
                     series_fillna (series_filter (series_notna cl) payments)
                       (series_median (series_filter (series_notna cl) payments))]>
                   (series_filter (series_notna cl) <$> columns df) |}.
Proof.
  intros Hrun.
  destruct (columns df !! "CREDIT_LIMIT") as [cl|] eqn:Hcl.
  - destruct (columns df !! "MINIMUM_PAYMENTS") as [payments|] eqn:Hpay.
    + rewrite (clean_data_ok df cl payments Hcl Hpay) in Hrun.
      injection Hrun as <-. by exists cl, payments.
    + unfold clean_data, df_dropna, df_getitem in Hrun.
      rewrite (getitem_Some _ _ _ Hcl), bind_Ok in Hrun. cbn in Hrun.
      rewrite (getitem_None _ "MINIMUM_PAYMENTS") in Hrun
        by (by rewrite lookup_fmap, Hpay).
      discriminate.
  - unfold clean_data, df_dropna, df_getitem in Hrun.
    rewrite (getitem_None _ _ Hcl) in Hrun. discriminate.
Qed.
End CleaningMore.

(** X17: cleaning raises exactly when the CREDIT_LIMIT or the MINIMUM_PAYMENTS
    column is missing, a [KeyError]; the values never make it fail. *)
Theorem clean_data_fails_exactly_on_missing_column series_median (df : DataFrame) :
  match first_missing ["CREDIT_LIMIT"; "MINIMUM_PAYMENTS"] (columns df) with
  | Some c => columns df !! c = None
              ∧ ∃ key, clean_data series_median df = Raise (KeyError key)
  | None => is_Ok (clean_data series_median df)
  end.
Proof.
  cbn [first_missing].
  destruct (columns df !! "CREDIT_LIMIT") as [cl|] eqn:Hcl.
  - destruct (columns df !! "MINIMUM_PAYMENTS") as [payments|] eqn:Hpay.
    + rewrite (clean_data_ok series_median df cl payments Hcl Hpay). by eexists.
    + split; [done |]. eexists.
      unfold clean_data, df_dropna, df_getitem.
      rewrite (getitem_Some _ _ _ Hcl), bind_Ok. cbn.
      rewrite (getitem_None _ "MINIMUM_PAYMENTS") by (by rewrite lookup_fmap, Hpay).
      reflexivity.
  - split; [done |]. eexists. unfold clean_data, df_dropna, df_getitem.
    by rewrite (getitem_None _ _ Hcl).
Qed.

(** X18: after cleaning no credit limit is missing, every kept row keeps its
    values in all other columns, and no minimum payment is missing either
    provided the median of the kept minimum payments is a number; when it
    is nan (all of them missing) the gaps stay. *)
Theorem clean_data_removes_missing_values series_median (df df' : DataFrame) :
  clean_data series_median df = Ok df' →
  ∃ cl payments,
    columns df !! "CREDIT_LIMIT" = Some cl
    ∧ columns df !! "MINIMUM_PAYMENTS" = Some payments
    ∧ index df' = filter_mask (series_notna cl) (index df)
    ∧ (∀ k, k ≠ "MINIMUM_PAYMENTS" →
         columns df' !! k = series_filter (series_notna cl) <$> columns df !! k)
    ∧ (∃ cl', columns df' !! "CREDIT_LIMIT" = Some cl' ∧ no_nan cl')
    ∧ (∃ payments',
         columns df' !! "MINIMUM_PAYMENTS" = Some payments'
         ∧ (is_nan (series_median (series_filter (series_notna cl) payments)) = false →
            no_nan payments')).
Proof.
  intros Hrun.
  apply clean_data_inv in Hrun as (cl & payments & Hcl & Hpay & ->).
  exists cl, payments.
  split; [done |]. split; [done |]. split; [done |]. cbn. split; [| split].
  - intros k Hk. by rewrite lookup_insert_ne, lookup_fmap.
  - exists (series_filter (series_notna cl) cl).
    rewrite lookup_insert_ne, lookup_fmap, Hcl by done. split; [done |].
    destruct cl as [xs | zs]; cbn; [apply filter_mask_notna | done].
  - eexists. rewrite lookup_insert_eq. split; [done |].
    apply series_fillna_no_nan.
Qed.

(** X19: cleaning keeps a frame well formed and never adds a row or a column. *)
Theorem clean_data_keeps_shape series_median (df df' : DataFrame) :
  well_formed df →
  clean_data series_median df = Ok df' →
  well_formed df'
  ∧ (df_len df' ≤ df_len df)%nat
  ∧ dom (columns df') = dom (columns df).
Proof.
  intros Hwf Hrun.
  apply clean_data_inv in Hrun as (cl & payments & Hcl & Hpay & ->).
  split; [| split].
  - intros k s. unfold df_len. cbn.
    destruct (decide ("MINIMUM_PAYMENTS" = k)) as [<- | Hne].
    + rewrite lookup_insert_eq. intros [= <-].
      rewrite series_fillna_len. apply series_len_filter. by apply (Hwf _ _ Hpay).
    + rewrite lookup_insert_ne, lookup_fmap by done.
      destruct (columns df !! k) as [s0|] eqn:Hk; [| discriminate].
      intros [= <-]. apply series_len_filter. by apply (Hwf _ _ Hk).
  - unfold df_len. cbn. apply filter_mask_length_le.
  - cbn. rewrite dom_insert_L, dom_fmap_L.
    apply subseteq_union_1_L, singleton_subseteq_l. by apply elem_of_dom_2 in Hpay.
Qed.

(** X20: a well-formed frame in which neither column has a gap passes through
    cleaning unchanged, whatever the median is. *)
Theorem clean_data_leaves_complete_frames series_median (df : DataFrame)
    cl payments :
  well_formed df →
  columns df !! "CREDIT_LIMIT" = Some cl →
  columns df !! "MINIMUM_PAYMENTS" = Some payments →
  no_nan cl → no_nan payments →
  clean_data series_median df = Ok df.
Proof.
  intros Hwf Hcl Hpay Hclean Hpclean.
  rewrite (clean_data_ok series_median df cl payments Hcl Hpay). f_equal.
  pose proof (Hwf _ _ Hcl) as Hlen.
  assert (∀ k s, columns df !! k = Some s →
            series_filter (series_notna cl) s = s) as Hid.
  { intros k s Hk. apply series_filter_notna_id; [done |].
    by rewrite (Hwf _ _ Hk), Hlen. }
  destruct df as [idx cols]. cbn in *. f_equal.
  - unfold df_len in Hlen. cbn in Hlen.
    destruct cl as [xs | zs]; cbn in *;
      [by apply filter_mask_all | by apply filter_mask_true].
  - rewrite (Hid _ _ Hpay), series_fillna_id by done.
    apply map_eq. intros k. destruct (decide ("MINIMUM_PAYMENTS" = k)) as [<- | Hne].
    + by rewrite lookup_insert_eq.
    + rewrite lookup_insert_ne, lookup_fmap by done.
      destruct (cols !! k) as [s|] eqn:Hk; [| done]. cbn. by rewrite (Hid _ _ Hk).
Qed.

(** ** The request path on the form's entries *)

Lemma cols_log_not_in k :
  bool_decide (k ∈ Request.cols_log) = false → k ∉ Request.cols_log.
Proof. apply bool_decide_eq_false_1. Qed.

Lemma cols_log_in k :
  bool_decide (k ∈ Request.cols_log) = true → k ∈ Request.cols_log.
Proof. apply bool_decide_eq_true_1. Qed.

(** The columns of the one-row frame built from the form. *)
Lemma df_input_columns
    (balance balance_frequency purchases oneoff_purchases installments_purchases
     cash_advance purchases_frequency oneoff_purchases_frequency
     purchases_installments_frequency cash_advance_frequency : float)
    (cash_advance_trx purchases_trx : Z)
    (credit_limit payments minimum_payments prc_full_payment : float)
    (tenure : Z) :
  let df_input :=
    Request.df_input balance balance_frequency purchases oneoff_purchases
      installments_purchases cash_advance purchases_frequency
      oneoff_purchases_frequency purchases_installments_frequency
      cash_advance_frequency cash_advance_trx purchases_trx credit_limit
      payments minimum_payments prc_full_payment tenure in
  columns df_input !! "BALANCE" = Some (FloatSeries [balance])
  ∧ columns df_input !! "BALANCE_FREQUENCY" = Some (FloatSeries [balance_frequency])
  ∧ columns df_input !! "PURCHASES" = Some (FloatSeries [purchases])
  ∧ columns df_input !! "ONEOFF_PURCHASES" = Some (FloatSeries [oneoff_purchases])
  ∧ columns df_input !! "INSTALLMENTS_PURCHASES"
    = Some (FloatSeries [installments_purchases])
  ∧ columns df_input !! "CASH_ADVANCE" = Some (FloatSeries [cash_advance])
  ∧ columns df_input !! "PURCHASES_FREQUENCY" = Some (FloatSeries [purchases_frequency])
  ∧ columns df_input !! "ONEOFF_PURCHASES_FREQUENCY"
    = Some (FloatSeries [oneoff_purchases_frequency])
  ∧ columns df_input !! "PURCHASES_INSTALLMENTS_FREQUENCY"
    = Some (FloatSeries [purchases_installments_frequency])
  ∧ columns df_input !! "CASH_ADVANCE_FREQUENCY"
    = Some (FloatSeries [cash_advance_frequency])
  ∧ columns df_input !! "CASH_ADVANCE_TRX" = Some (IntSeries [cash_advance_trx])
  ∧ columns df_input !! "PURCHASES_TRX" = Some (IntSeries [purchases_trx])
  ∧ columns df_input !! "CREDIT_LIMIT" = Some (FloatSeries [credit_limit])
  ∧ columns df_input !! "PAYMENTS" = Some (FloatSeries [payments])
  ∧ columns df_input !! "MINIMUM_PAYMENTS" = Some (FloatSeries [minimum_payments])
  ∧ columns df_input !! "PRC_FULL_PAYMENT" = Some (FloatSeries [prc_full_payment])
  ∧ columns df_input !! "TENURE" = Some (IntSeries [tenure])
  ∧ dom (columns df_input) = list_to_set feature_columns.
Proof.
  intros df_input. subst df_input.
  repeat apply conj; vm_compute; reflexivity.
Qed.

(** X21: whatever is entered in the form, the log step of the request path cannot
    fail: the frame the model stages get has one row, the twelve listed
    entries as [np.log(1 + entry)] (the two transaction counts turned into
    floats), the other five as entered; the label is the first the model
    returns, [IndexError] if it returns none. *)
Theorem request_frame_after_log_step np_log predict
    (balance balance_frequency purchases oneoff_purchases installments_purchases
     cash_advance purchases_frequency oneoff_purchases_frequency
     purchases_installments_frequency cash_advance_frequency : float)
    (cash_advance_trx purchases_trx : Z)
    (credit_limit payments minimum_payments prc_full_payment : float)
    (tenure : Z) :
  let df_input :=
    Request.df_input balance balance_frequency purchases oneoff_purchases
      installments_purchases cash_advance purchases_frequency
      oneoff_purchases_frequency purchases_installments_frequency
      cash_advance_frequency cash_advance_trx purchases_trx credit_limit
      payments minimum_payments prc_full_payment tenure in
  ∃ df_processed,
    log_columns np_log Request.cols_log df_input = Ok df_processed
    ∧ predict_cluster np_log predict df_input
      = match predict df_processed with
        | Ok (cluster :: _) => Ok cluster
        | Ok [] => Raise IndexError
        | Raise e => Raise e
        end
    ∧ index df_processed = [0%nat]
    ∧ dom (columns df_processed) = list_to_set feature_columns
    ∧ columns df_processed !! "BALANCE"
      = Some (FloatSeries [np_log (1 + balance)%float])
    ∧ columns df_processed !! "BALANCE_FREQUENCY"
      = Some (FloatSeries [balance_frequency])
    ∧ columns df_processed !! "PURCHASES" = Some (FloatSeries [purchases])
    ∧ columns df_processed !! "ONEOFF_PURCHASES"
      = Some (FloatSeries [np_log (1 + oneoff_purchases)%float])
    ∧ columns df_processed !! "INSTALLMENTS_PURCHASES"
      = Some (FloatSeries [np_log (1 + installments_purchases)%float])
    ∧ columns df_processed !! "CASH_ADVANCE"
      = Some (FloatSeries [np_log (1 + cash_advance)%float])
    ∧ columns df_processed !! "PURCHASES_FREQUENCY"
      = Some (FloatSeries [purchases_frequency])
    ∧ columns df_processed !! "ONEOFF_PURCHASES_FREQUENCY"
      = Some (FloatSeries [np_log (1 + oneoff_purchases_frequency)%float])
    ∧ columns df_processed !! "PURCHASES_INSTALLMENTS_FREQUENCY"
      = Some (FloatSeries [np_log (1 + purchases_installments_frequency)%float])
    ∧ columns df_processed !! "CASH_ADVANCE_FREQUENCY"
      = Some (FloatSeries [cash_advance_frequency])
    ∧ columns df_processed !! "CASH_ADVANCE_TRX"
      = Some (FloatSeries [np_log (of_Z (wrap64 (1 + cash_advance_trx)))])
    ∧ columns df_processed !! "PURCHASES_TRX"
      = Some (FloatSeries [np_log (of_Z (wrap64 (1 + purchases_trx)))])
    ∧ columns df_processed !! "CREDIT_LIMIT"
      = Some (FloatSeries [np_log (1 + credit_limit)%float])
    ∧ columns df_processed !! "PAYMENTS"
      = Some (FloatSeries [np_log (1 + payments)%float])
    ∧ columns df_processed !! "MINIMUM_PAYMENTS"
      = Some (FloatSeries [np_log (1 + minimum_payments)%float])
    ∧ columns df_processed !! "PRC_FULL_PAYMENT"
      = Some (FloatSeries [np_log (1 + prc_full_payment)%float])
    ∧ columns df_processed !! "TENURE" = Some (IntSeries [tenure]).
Proof.
  intros df_input.
  destruct (log_columns_ok np_log Request.cols_log df_input cols_log_NoDup)
    as (df' & Hrun & Hlog).
  { subst df_input. solve_has_fields. }
  destruct (log_columns_frame np_log _ _ _ Hrun) as [Hidx Hkeep].
  pose proof (log_columns_dom np_log _ _ _ Hrun) as Hdom.
  exists df'. split; [exact Hrun |]. split.
  { unfold predict_cluster. rewrite Hrun, bind_Ok.
    by destruct (predict df') as [[|c cs]|e]. }
  pose proof (df_input_columns balance balance_frequency purchases
                oneoff_purchases installments_purchases cash_advance
                purchases_frequency oneoff_purchases_frequency
                purchases_installments_frequency cash_advance_frequency
                cash_advance_trx purchases_trx credit_limit payments
                minimum_payments prc_full_payment tenure)
    as (H1 & H2 & H3 & H4 & H5 & H6 & H7 & H8 & H9 & H10 & H11 & H12 & H13
        & H14 & H15 & H16 & H17 & Hdom_in).
  fold df_input in H1, H2, H3, H4, H5, H6, H7, H8, H9, H10, H11, H12, H13,
    H14, H15, H16, H17, Hdom_in.
  split; [exact Hidx |]. split; [by rewrite Hdom |].
  repeat match goal with
  | |- _ ∧ _ => split
  | |- columns df' !! ?k = _ =>
      first
        [ rewrite (Hlog k) by (apply cols_log_in; vm_compute; reflexivity)
        | rewrite (Hkeep k) by (apply cols_log_not_in; vm_compute; reflexivity) ];
      first [ rewrite H1 | rewrite H2 | rewrite H3 | rewrite H4 | rewrite H5
            | rewrite H6 | rewrite H7 | rewrite H8 | rewrite H9 | rewrite H10
            | rewrite H11 | rewrite H12 | rewrite H13 | rewrite H14
            | rewrite H15 | rewrite H16 | rewrite H17 ];
      reflexivity
  end.
Qed.

(** ** The further properties at concrete inputs *)

Lemma rule_reports_first_missing_field_witness :
  "CREDIT_LIMIT" ∈ predicate_fields
  ∧ Sample.means_without_limit !! "CREDIT_LIMIT" = None
  ∧ create_cluster_description Fixture.float_format 0 Sample.means_without_limit
    = Raise (KeyError (KStr "CREDIT_LIMIT")).
Proof.
  apply (rule_reports_first_missing_field Fixture.float_format 0
           Sample.means_without_limit "CREDIT_LIMIT").
  vm_compute. reflexivity.
Defined.

Lemma rule_on_nan_means_witness :
  ∃ d, create_cluster_description Fixture.float_format 1 Sample.means_nan = Ok d
       ∧ is_profile (if bool_decide (1 = 0) then ModerateUsers else LowActivity) d.
Proof.
  apply (rule_on_nan_means Fixture.float_format 1 Sample.means_nan).
  - solve_has_fields.
  - vm_compute. reflexivity.
  - vm_compute. reflexivity.
  - vm_compute. reflexivity.
Defined.

Lemma profile_depends_on_tested_predicates_only_witness :
  name <$> create_cluster_description Fixture.float_format 1 Fixture.means_low
  = name <$> create_cluster_description Fixture.float_format 1
               (<["BALANCE" := 99000%float]>
                  (<["PURCHASES" := 999%float]> Fixture.means_low))
  ∧ key_features <$> create_cluster_description Fixture.float_format 1 Fixture.means_low
    = key_features <$> create_cluster_description Fixture.float_format 1
                         (<["BALANCE" := 99000%float]>
                            (<["PURCHASES" := 999%float]> Fixture.means_low)).
Proof.
  apply (profile_depends_on_tested_predicates_only Fixture.float_format 1).
  - solve_has_fields.
  - solve_has_fields.
  - vm_compute. reflexivity.
  - vm_compute. reflexivity.
  - intros H. discriminate H.
  - intros _. vm_compute. reflexivity.
Defined.

Lemma profiles_are_split_by_cluster_id_witness :
  ∃ d, create_cluster_description Fixture.float_format 3 Sample.means_cash = Ok d
       ∧ (3 = 0 →
          is_profile ActiveSolvent d ∨ is_profile ActiveInstallments d
          ∨ is_profile ModerateUsers d)
       ∧ (3 ≠ 0 →
          is_profile CashAdvanceUsers d ∨ is_profile LowActivity d
          ∨ is_profile UnusualBehavior d).
Proof.
  eexists. split; [vm_compute; reflexivity |].
  apply (profiles_are_split_by_cluster_id Fixture.float_format 3 Sample.means_cash).
  vm_compute. reflexivity.
Defined.

Lemma analysis_stops_at_missing_log_column_witness :
  load_data_and_analyze_clusters Fixture.np_log Fixture.series_mean
    Fixture.float_format (Fixture.labelling [0; 1; 1]) Sample.raw
  = Raise (KeyError (KStr "ONEOFF_PURCHASES")).
Proof.
  apply (analysis_stops_at_missing_log_column Fixture.np_log Fixture.series_mean
           Fixture.float_format Sample.raw "ONEOFF_PURCHASES").
  vm_compute. reflexivity.
Defined.

Lemma log_step_ignores_column_order_witness :
  log_columns Fixture.np_log Analyze.cols_log Fixture.default_input
  = log_columns Fixture.np_log (reverse Analyze.cols_log) Fixture.default_input
  ∧ is_Ok (log_columns Fixture.np_log Analyze.cols_log Fixture.default_input).
Proof.
  apply (log_step_ignores_column_order Fixture.np_log Analyze.cols_log
           (reverse Analyze.cols_log) Fixture.default_input).
  - symmetry. apply reverse_Permutation.
  - exact cols_log_NoDup.
  - solve_has_fields.
Defined.

Lemma well_formed_decide (df : DataFrame) :
  bool_decide (map_Forall (λ _ s, series_len s = df_len df) (columns df)) = true →
  well_formed df.
Proof. intros H%bool_decide_eq_true. exact H. Qed.

Lemma sample_analysis01 :
  load_data_and_analyze_clusters Fixture.np_log Fixture.series_mean
    Fixture.float_format (Fixture.labelling [0; 1]) Fixture.two_customers
  = Ok Sample.analysis01.
Proof. vm_compute. reflexivity. Qed.

Lemma sample_analysis02 :
  load_data_and_analyze_clusters Fixture.np_log Fixture.series_mean
    Fixture.float_format (Fixture.labelling [0; 2]) Fixture.two_customers
  = Ok Sample.analysis02.
Proof. vm_compute. reflexivity. Qed.

Lemma sample_analysis31 :
  load_data_and_analyze_clusters Fixture.np_log Fixture.series_mean
    Fixture.float_format (Fixture.labelling [3; 1]) Fixture.two_customers
  = Ok Sample.analysis31.
Proof. vm_compute. reflexivity. Qed.

Lemma sample_cleaned : clean_data Sample.series_median Sample.raw = Ok Sample.cleaned.
Proof. vm_compute. reflexivity. Qed.

Lemma sample_logged_input :
  log_columns Fixture.np_log Request.cols_log Fixture.default_input
  = Ok Sample.logged_input.
Proof. vm_compute. reflexivity. Qed.

Lemma log_step_keeps_shape_witness :
  well_formed Sample.logged_input
  ∧ df_len Sample.logged_input = df_len Fixture.default_input
  ∧ dom (columns Sample.logged_input) = dom (columns Fixture.default_input)
  ∧ ∀ c, c ∈ Request.cols_log →
      ∃ xs, columns Sample.logged_input !! c = Some (FloatSeries xs)
            ∧ length xs = df_len Fixture.default_input.
Proof.
  apply (log_step_keeps_shape Fixture.np_log Request.cols_log Fixture.default_input).
  - apply well_formed_decide. vm_compute. reflexivity.
  - exact sample_logged_input.
Defined.

Lemma lookup_after_analysis_witness :
  dom Sample.analysis01 = {[0; 1]}
  ∧ (5 = 0 ∨ 5 = 1 → is_Ok (cluster_info Sample.analysis01 5))
  ∧ (5 ≠ 0 → 5 ≠ 1 →
     cluster_info Sample.analysis01 5 = Raise (KeyError (KInt 5))).
Proof.
  exact (lookup_after_analysis _ _ _ _ _ _ 5 sample_analysis01).
Defined.

Lemma analysis_means_are_of_raw_rows_witness :
  ∃ df_log clusters,
    log_columns Fixture.np_log Analyze.cols_log Fixture.two_customers = Ok df_log
    ∧ Fixture.labelling [0; 1] df_log = Ok clusters
    ∧ ∀ cluster info,
        cluster_info Sample.analysis01 cluster = Ok info →
        (∀ k s, k ≠ "cluster_id" → columns Fixture.two_customers !! k = Some s →
           ci_means info !! k
           = Some (Fixture.series_mean
                     (series_filter ((λ x, bool_decide (x = cluster)) <$> clusters) s)))
        ∧ ci_means info !! "cluster_id"
          = Some (Fixture.series_mean
                    (IntSeries
                       (filter_mask ((λ x, bool_decide (x = cluster)) <$> clusters)
                          clusters))).
Proof.
  exact (analysis_means_are_of_raw_rows _ _ _ _ _ _ sample_analysis01).
Defined.

Lemma analysis_counts_only_labels_0_and_1_witness :
  ∃ df_log clusters info0 info1,
    log_columns Fixture.np_log Analyze.cols_log Fixture.two_customers = Ok df_log
    ∧ Fixture.labelling [0; 2] df_log = Ok clusters
    ∧ cluster_info Sample.analysis02 0 = Ok info0
    ∧ cluster_info Sample.analysis02 1 = Ok info1
    ∧ ci_size info0 = rows_of 0 clusters
    ∧ ci_size info1 = rows_of 1 clusters
    ∧ (ci_size info0 + ci_size info1 ≤ df_len Fixture.two_customers)%nat
    ∧ ((ci_size info0 + ci_size info1 = df_len Fixture.two_customers)%nat
       ↔ Forall (λ c, c = 0 ∨ c = 1) clusters).
Proof.
  exact (analysis_counts_only_labels_0_and_1 _ _ _ _ _ _ sample_analysis02).
Defined.

Lemma analysis_of_empty_dataset_witness :
  (∀ cluster_analysis,
     load_data_and_analyze_clusters Fixture.np_log Fixture.series_mean
       Fixture.float_format (Fixture.labelling []) (Fixture.customers 0 1000)
     ≠ Ok cluster_analysis)
  ∧ load_data_and_analyze_clusters Fixture.np_log Fixture.series_mean
      Fixture.float_format (Fixture.labelling []) (Fixture.customers 0 1000)
    = Raise ZeroDivisionError.
Proof.
  destruct (analysis_of_empty_dataset Fixture.np_log Fixture.series_mean
              Fixture.float_format (Fixture.labelling [])
              (Fixture.customers 0 1000) eq_refl) as [Hnever Hzero].
  split; [exact Hnever |].
  eapply Hzero.
  - solve_has_fields.
  - vm_compute. reflexivity.
  - reflexivity.
Defined.

Lemma request_with_unseen_label_fails_witness :
  handle_request Fixture.np_log Fixture.float_format (Fixture.labelling [3; 1])
    Sample.analysis31 Fixture.default_input
  = Raise (KeyError (KInt 3)).
Proof.
  apply (request_with_unseen_label_fails Fixture.np_log Fixture.series_mean
           Fixture.float_format (Fixture.labelling [3; 1]) Fixture.two_customers).
  - exact sample_analysis31.
  - vm_compute. reflexivity.
  - discriminate.
  - discriminate.
Defined.

Lemma key_metrics_of_analysed_segment_witness :
  ∃ info b p pf cl pay ca prc,
    cluster_info Sample.analysis01 1 = Ok info
    ∧ ci_means info !! "BALANCE" = Some b
    ∧ ci_means info !! "PURCHASES" = Some p
    ∧ ci_means info !! "PURCHASES_FREQUENCY" = Some pf
    ∧ ci_means info !! "CREDIT_LIMIT" = Some cl
    ∧ ci_means info !! "PAYMENTS" = Some pay
    ∧ ci_means info !! "CASH_ADVANCE" = Some ca
    ∧ ci_means info !! "PRC_FULL_PAYMENT" = Some prc
    ∧ segment_metrics Fixture.float_format Sample.analysis01 1
      = Ok [("BALANCE", "$" +:+ Fixture.float_format ",.2f" b);
            ("PURCHASES", "$" +:+ Fixture.float_format ",.2f" p);
            ("PURCHASES_FREQUENCY", "$" +:+ Fixture.float_format ",.2f" pf);
            ("CREDIT_LIMIT", "$" +:+ Fixture.float_format ",.2f" cl);
            ("PAYMENTS", "$" +:+ Fixture.float_format ",.2f" pay);
            ("CASH_ADVANCE", "$" +:+ Fixture.float_format ",.2f" ca);
            ("PRC_FULL_PAYMENT", Fixture.float_format ".2%" prc)].
Proof.
  apply (key_metrics_of_analysed_segment Fixture.np_log Fixture.series_mean
           Fixture.float_format (Fixture.labelling [0; 1]) Fixture.two_customers).
  - exact sample_analysis01.
  - solve_has_fields.
  - right. reflexivity.
Defined.

Lemma overview_after_analysis_witness :
  ∃ info0 info1,
    cluster_info Sample.analysis01 0 = Ok info0
    ∧ cluster_info Sample.analysis01 1 = Ok info1
    ∧ overview Sample.analysis01
      = Ok [(name (ci_description info0), description (ci_description info0),
             ci_size info0, ci_percentage info0);
            (name (ci_description info1), description (ci_description info1),
             ci_size info1, ci_percentage info1)].
Proof.
  exact (overview_after_analysis _ _ _ _ _ _ sample_analysis01).
Defined.

Lemma clean_data_removes_missing_values_witness :
  ∃ cl payments,
    columns Sample.raw !! "CREDIT_LIMIT" = Some cl
    ∧ columns Sample.raw !! "MINIMUM_PAYMENTS" = Some payments
    ∧ index Sample.cleaned = filter_mask (series_notna cl) (index Sample.raw)
    ∧ (∀ k, k ≠ "MINIMUM_PAYMENTS" →
         columns Sample.cleaned !! k
         = series_filter (series_notna cl) <$> columns Sample.raw !! k)
    ∧ (∃ cl', columns Sample.cleaned !! "CREDIT_LIMIT" = Some cl' ∧ no_nan cl')
    ∧ (∃ payments',
         columns Sample.cleaned !! "MINIMUM_PAYMENTS" = Some payments'
         ∧ (is_nan (Sample.series_median
                      (series_filter (series_notna cl) payments)) = false →
            no_nan payments')).
Proof.
  exact (clean_data_removes_missing_values _ _ _ sample_cleaned).
Defined.

Lemma clean_data_keeps_shape_witness :
  well_formed Sample.cleaned
  ∧ (df_len Sample.cleaned ≤ df_len Sample.raw)%nat
  ∧ dom (columns Sample.cleaned) = dom (columns Sample.raw).
Proof.
  apply (clean_data_keeps_shape Sample.series_median Sample.raw).
  - apply well_formed_decide. vm_compute. reflexivity.
  - exact sample_cleaned.
Defined.

Lemma clean_data_leaves_complete_frames_witness :
  clean_data Sample.series_median Fixture.two_customers = Ok Fixture.two_customers.
Proof.
  eapply (clean_data_leaves_complete_frames Sample.series_median
            Fixture.two_customers).
  - apply well_formed_decide. vm_compute. reflexivity.
  - vm_compute. reflexivity.
  - vm_compute. reflexivity.
  - cbn. repeat constructor.
  - cbn. repeat constructor.
Defined.

(** The cleaned sample: the account without a credit limit is gone, the
    missing minimum payment is the median. *)
Example cleaned_sample :
  index Sample.cleaned = [0%nat; 2%nat]
  ∧ columns Sample.cleaned !! "CREDIT_LIMIT" = Some (FloatSeries [1000; 2500]%float)
  ∧ columns Sample.cleaned !! "MINIMUM_PAYMENTS" = Some (FloatSeries [140; 150]%float)
  ∧ columns Sample.cleaned !! "TENURE" = Some (IntSeries [12; 6]).
Proof. repeat split; vm_compute; reflexivity. Qed.
